(** * Shipping Data Dashboard (streamlit_app.py): filter and aggregation core

    A shallow embedding of the data transformations of [streamlit_app.py].
    A pandas DataFrame is a list of rows, a column a field of the row.

    Numbers.  The CSV columns hold float64 values.  A finite amount is
    modelled as an exact rational ([Qc]), a missing cell (NaN) as [None], and
    the sums of amounts are exact.  A statement about a total therefore names
    the records it adds up; where two totals are reached by adding the same
    amounts in different groupings, the statement is about the records, not
    about the equality of the totals, because float64 addition rounds.  The section on binary64 evaluates the Total Value
    metric, the monthly buckets and the per-country totals with the machine
    operations, to show such totals apart.  Columns are float64 throughout: a
    column that pandas would read as int64 (no decimal point and no missing
    cell in the whole file) is outside this model.
    The growth rate of the trend analysis is the one place where the script
    divides, so it lives in [float], which adds the IEEE special values
    [PInf], [NInf] and [NaN] to the rationals.

    Text and dates.  The text columns hold strings and ARRIVAL DATE a parsed
    timestamp: every record has its names, countries, product and date (a
    record without one of them is outside this model).

    Order.  A ranking lists equal values in the order of the frame it is
    taken from.  [nlargest] documents that order.  [sort_values] documents
    none: it is modelled with the same one, and no statement below says
    which of two groups of equal total it puts first.

    Objects.  The pure functions below give the content of each frame; the
    section on the render cycle places the frames in an object store, to say
    which object each assignment of the script updates.  The widgets and the
    charts of the page are not modelled. *)

From Stdlib Require Import ZArith List Bool QArith Qcanon Lia.
From Stdlib Require Import Sorting.Sorted Permutation.
From Corelib Require PrimFloat.
From stdpp Require Import base numbers strings gmap sorting.
Import ListNotations.

Local Open Scope Z_scope.

(* ===================================================================== *)
(** ** Data model                                                         *)
(* ===================================================================== *)

(** [datetime.date]: compared as the tuple (year, month, day). *)
Record date := Date { year : Z; month : Z; day : Z }.

Definition date_le (a b : date) : bool :=
  (year a <? year b)
  || ((year a =? year b)
      && ((month a <? month b)
          || ((month a =? month b) && (day a <=? day b)))).

(** [pandas.Timestamp]: a calendar date and the time of day (nanoseconds since
    midnight).  [.dt.date] keeps the date and forgets the time of day. *)
Record Timestamp := { ts_date : date; ts_time : Z }.

Definition dt_date (t : Timestamp) : date := ts_date t.

(** One row of the frame read from `data/<company>.csv`.  TOTAL VALUE is the
    column the script adds in step 5; it is [None] before that. *)
Record Row := {
  ARRIVAL_DATE : Timestamp;
  IMPORTER_NAME : string;
  IMPORTER_COUNTRY : string;
  COUNTRY_OF_ORIGIN : string;
  PRODUCT_DETAILS : string;
  IMPORT_VALUE_CIF : option Qc;
  IMPORT_VALUE_FOB : option Qc;
  QUANTITY : option Qc;
  QUANTITY_UNIT : string;
  TOTAL_VALUE : option Qc
}.

Definition DataFrame := list Row.

(** The sidebar selections of one render cycle. *)
Record FilterSpec := {
  start_date : date;
  end_date : date;
  selected_importers : list string;
  selected_importer_country : string;
  selected_exporter_country : string
}.

(* ===================================================================== *)
(** ** Filter engine (steps 1 and 2)                                      *)
(* ===================================================================== *)

(** Line 50:
    [shipping_df[(shipping_df['ARRIVAL DATE'].dt.date >= start_date) &
                 (shipping_df['ARRIVAL DATE'].dt.date <= end_date)]] *)
Definition in_range (s e : date) (r : Row) : bool :=
  date_le s (dt_date (ARRIVAL_DATE r)) && date_le (dt_date (ARRIVAL_DATE r)) e.

Definition date_filter (s e : date) (df : DataFrame) : DataFrame :=
  List.filter (in_range s e) df.

(** [Series.isin(values)] *)
Definition isin (values : list string) (x : string) : bool :=
  existsb (String.eqb x) values.

(** Truth value of a Python list: true when it is not empty. *)
Definition truthy {A} (l : list A) : bool :=
  match l with [] => false | _ :: _ => true end.

(** Lines 66-67:
    [if selected_importers:
         filtered_df = filtered_df[filtered_df['IMPORTER NAME'].isin(selected_importers)]] *)
Definition importer_filter (sel : list string) (df : DataFrame) : DataFrame :=
  if truthy sel
  then List.filter (fun r => isin sel (IMPORTER_NAME r)) df
  else df.

(** Lines 68-69 and 70-71: the sentinel 'All' switches the filter off. *)
Definition country_filter (col : Row -> string) (choice : string) (df : DataFrame)
  : DataFrame :=
  if negb (String.eqb choice "All")
  then List.filter (fun r => String.eqb (col r) choice) df
  else df.

(** Lines 50-71. *)
Definition apply_filters (spec : FilterSpec) (shipping_df : DataFrame) : DataFrame :=
  let filtered_df := date_filter (start_date spec) (end_date spec) shipping_df in
  let filtered_df := importer_filter (selected_importers spec) filtered_df in
  let filtered_df :=
    country_filter IMPORTER_COUNTRY (selected_importer_country spec) filtered_df in
  country_filter COUNTRY_OF_ORIGIN (selected_exporter_country spec) filtered_df.

(* ===================================================================== *)
(** ** Columns and sums                                                   *)
(* ===================================================================== *)

(** [Series.fillna(0)] on one cell. *)
Definition fillna0 (x : option Qc) : Qc :=
  match x with Some v => v | None => 0%Qc end.

(** [Series.sum()]: NaN cells are skipped, the empty sum is 0. *)
Fixpoint series_sum (s : list (option Qc)) : Qc :=
  match s with
  | [] => 0%Qc
  | Some v :: s' => (v + series_sum s')%Qc
  | None :: s' => series_sum s'
  end.

Definition set_TOTAL_VALUE (v : option Qc) (r : Row) : Row :=
  {| ARRIVAL_DATE := ARRIVAL_DATE r; IMPORTER_NAME := IMPORTER_NAME r;
     IMPORTER_COUNTRY := IMPORTER_COUNTRY r;
     COUNTRY_OF_ORIGIN := COUNTRY_OF_ORIGIN r;
     PRODUCT_DETAILS := PRODUCT_DETAILS r;
     IMPORT_VALUE_CIF := IMPORT_VALUE_CIF r;
     IMPORT_VALUE_FOB := IMPORT_VALUE_FOB r;
     QUANTITY := QUANTITY r; QUANTITY_UNIT := QUANTITY_UNIT r;
     TOTAL_VALUE := v |}.

Definition set_QUANTITY_UNIT (u : string) (r : Row) : Row :=
  {| ARRIVAL_DATE := ARRIVAL_DATE r; IMPORTER_NAME := IMPORTER_NAME r;
     IMPORTER_COUNTRY := IMPORTER_COUNTRY r;
     COUNTRY_OF_ORIGIN := COUNTRY_OF_ORIGIN r;
     PRODUCT_DETAILS := PRODUCT_DETAILS r;
     IMPORT_VALUE_CIF := IMPORT_VALUE_CIF r;
     IMPORT_VALUE_FOB := IMPORT_VALUE_FOB r;
     QUANTITY := QUANTITY r; QUANTITY_UNIT := u;
     TOTAL_VALUE := TOTAL_VALUE r |}.

(** The value line 96 stores in TOTAL VALUE for one row:
    [cif.fillna(0) + fob.fillna(0)]. *)
Definition row_total (r : Row) : Qc :=
  (fillna0 (IMPORT_VALUE_CIF r) + fillna0 (IMPORT_VALUE_FOB r))%Qc.

(** Line 96:
    [filtered_df['TOTAL VALUE'] =
       filtered_df['IMPORT VALUE CIF'].fillna(0) + filtered_df['IMPORT VALUE FOB'].fillna(0)] *)
Definition derive_total_value (df : DataFrame) : DataFrame :=
  map (fun r => set_TOTAL_VALUE (Some (row_total r)) r) df.

(** Line 120: [filtered_df['QUANTITY UNIT'].replace('Pieces', 'PCS')] *)
Definition replace_pieces (df : DataFrame) : DataFrame :=
  map (fun r => if String.eqb (QUANTITY_UNIT r) "Pieces"
                then set_QUANTITY_UNIT "PCS" r else r) df.

(* ===================================================================== *)
(** ** Group-by                                                           *)
(* ===================================================================== *)

(** [df.groupby(key)] with the defaults [sort=True]: the group keys are the
    distinct key values, in increasing order; a group holds the rows of its
    key, in frame order. *)
Section GroupBy.
Context {K : Type} `{EqDecision K} (le : relation K) `{!RelDecision le}.

Definition group_keys (key : Row -> K) (df : DataFrame) : list K :=
  merge_sort le (remove_dups (map key df)).

Definition group_rows (key : Row -> K) (k : K) (df : DataFrame) : DataFrame :=
  List.filter (fun r => bool_decide (key r = k)) df.

(** [df.groupby(key)[col].sum()] *)
Definition groupby_sum (key : Row -> K) (col : Row -> option Qc) (df : DataFrame)
  : list (K * Qc) :=
  map (fun k => (k, series_sum (map col (group_rows key k df)))) (group_keys key df).
End GroupBy.

(** A stable sort: [a] is put in front of the first element it may precede, so
    elements that may precede each other keep the order they come in. *)
Fixpoint insert_by {A} (before : A -> A -> bool) (a : A) (l : list A) : list A :=
  match l with
  | [] => [a]
  | b :: l' => if before a b then a :: b :: l' else b :: insert_by before a l'
  end.

Fixpoint stable_sort {A} (before : A -> A -> bool) (l : list A) : list A :=
  match l with
  | [] => []
  | a :: l' => insert_by before a (stable_sort before l')
  end.

(** [sort_values(col, ascending=False)] and the order [nlargest] returns: the
    rows by decreasing value, rows of equal value in the order of the frame.
    [nlargest] promises that order among ties ([keep='first']);
    [sort_values] promises none, and is given the same one here. *)
Definition ge_on {A} (val : A -> Qc) : relation A :=
  fun a b => (val b <= val a)%Qc.

#[global] Instance ge_on_dec {A} (val : A -> Qc) : RelDecision (ge_on val).
Proof. intros a b. unfold ge_on. apply Qc_le_dec. Defined.

Definition sort_desc {A} (val : A -> Qc) (l : list A) : list A :=
  stable_sort (fun a b => bool_decide (ge_on val a b)) l.

(** [.head(n)] *)
Definition head {A} (n : nat) (l : list A) : list A := firstn n l.

(** [.nlargest(n, col)] *)
Definition nlargest {A} (n : nat) (val : A -> Qc) (l : list A) : list A :=
  firstn n (sort_desc val l).

(* ===================================================================== *)
(** ** Steps 3 and 4: top importers and top products by value             *)
(* ===================================================================== *)

(** A row of [groupby(key)[['IMPORT VALUE CIF', 'IMPORT VALUE FOB']].sum()]
    with the TOTAL VALUE column of line 75. *)
Record ValueGroup := {
  vg_key : string;
  vg_CIF : Qc;
  vg_FOB : Qc;
  vg_TOTAL : Qc
}.

(** Lines 74-75 (and 85-86). *)
Definition group_values (key : Row -> string) (df : DataFrame) : list ValueGroup :=
  map (fun k =>
         let g := group_rows key k df in
         let cif := series_sum (map IMPORT_VALUE_CIF g) in
         let fob := series_sum (map IMPORT_VALUE_FOB g) in
         {| vg_key := k; vg_CIF := cif; vg_FOB := fob;
            vg_TOTAL := (fillna0 (Some cif) + fillna0 (Some fob))%Qc |})
      (group_keys String.le key df).

(** Top-K by value: lines 74-76 with 10 for K. *)
Definition top_by_value (K : nat) (key : Row -> string) (df : DataFrame)
  : list ValueGroup :=
  head K (sort_desc vg_TOTAL (group_values key df)).

Definition top_importers (filtered_df : DataFrame) : list ValueGroup :=
  top_by_value 10 IMPORTER_NAME filtered_df.

Definition top_products (filtered_df : DataFrame) : list ValueGroup :=
  top_by_value 10 PRODUCT_DETAILS filtered_df.

(* ===================================================================== *)
(** ** Step 5: time series                                                *)
(* ===================================================================== *)

(** The month a timestamp falls in, counted in months: [pd.Grouper(freq='ME')]
    puts a timestamp in the bin of its calendar month, whatever its day and
    time of day. *)
Definition month_index (t : Timestamp) : Z :=
  year (ts_date t) * 12 + (month (ts_date t) - 1).

Definition is_leap (y : Z) : bool :=
  ((y mod 4 =? 0) && negb (y mod 100 =? 0)) || (y mod 400 =? 0).

Definition days_in_month (y m : Z) : Z :=
  if m =? 2 then (if is_leap y then 29 else 28)
  else if (m =? 4) || (m =? 6) || (m =? 9) || (m =? 11) then 30
  else 31.

(** The label of a monthly bin: the last day of the month, at midnight. *)
Definition month_end (k : Z) : Timestamp :=
  let y := k / 12 in
  let m := k mod 12 + 1 in
  {| ts_date := Date y m (days_in_month y m); ts_time := 0 |}.

Definition row_month (r : Row) : Z := month_index (ARRIVAL_DATE r).

(** A row of the time series: the month (its ARRIVAL DATE label is
    [month_end tb_month]) and the TOTAL VALUE summed over it. *)
Record TimeBucket := { tb_month : Z; tb_TOTAL : Qc }.

Definition tb_ARRIVAL_DATE (b : TimeBucket) : Timestamp := month_end (tb_month b).

(** The bins of a time grouper used alone: every month from the first month of
    the data to the last one, with or without rows; none for an empty frame. *)
Definition month_bins (df : DataFrame) : list Z :=
  match map row_month df with
  | [] => []
  | m :: ms =>
      let lo := fold_right Z.min m ms in
      let hi := fold_right Z.max m ms in
      map (fun i => lo + Z.of_nat i) (seq 0 (Z.to_nat (hi - lo + 1)))
  end.

(** Line 97:
    [filtered_df.groupby(pd.Grouper(key='ARRIVAL DATE', freq='ME'))['TOTAL VALUE']
       .sum().reset_index()] *)
Definition time_series_df (filtered_df : DataFrame) : list TimeBucket :=
  map (fun k => {| tb_month := k;
                   tb_TOTAL := series_sum (map TOTAL_VALUE (group_rows row_month k filtered_df)) |})
      (month_bins filtered_df).

(* ===================================================================== *)
(** ** Step 6: geographic rollup                                          *)
(* ===================================================================== *)

(** Line 105: [filtered_df.groupby('IMPORTER COUNTRY')['TOTAL VALUE'].sum().reset_index()] *)
Definition geo_df (filtered_df : DataFrame) : list (string * Qc) :=
  groupby_sum String.le IMPORTER_COUNTRY TOTAL_VALUE filtered_df.

(* ===================================================================== *)
(** ** Step 7: quantity by unit                                           *)
(* ===================================================================== *)

(** Line 124: [filtered_df[filtered_df['QUANTITY UNIT'] == selected_unit]] *)
Definition unit_rows (selected_unit : string) (filtered_df : DataFrame) : DataFrame :=
  List.filter (fun r => String.eqb (QUANTITY_UNIT r) selected_unit) filtered_df.

(** Top-K by quantity: lines 126-127 with 5 for K. *)
Definition top_by_quantity (K : nat) (unit_df : DataFrame) : list (string * Qc) :=
  nlargest K snd (groupby_sum String.le PRODUCT_DETAILS QUANTITY unit_df).

(** Lines 125-133: the ranking is computed only when [unit_df] has rows;
    otherwise the page shows "No data available" ([None] here). *)
Definition top_products_by_unit (unit_df : DataFrame) : option (list (string * Qc)) :=
  if truthy unit_df then Some (top_by_quantity 5 unit_df) else None.

(* ===================================================================== *)
(** ** Step 8: metrics                                                    *)
(* ===================================================================== *)

(** Lines 137-139. *)
Definition total_value (filtered_df : DataFrame) : Qc :=
  series_sum (map TOTAL_VALUE filtered_df).

Definition num_shipments (filtered_df : DataFrame) : nat := length filtered_df.

Definition num_importers (filtered_df : DataFrame) : nat :=
  length (remove_dups (map IMPORTER_NAME filtered_df)).

(* ===================================================================== *)
(** ** Step 10: trend analysis                                            *)
(* ===================================================================== *)

(** The values of the GROWTH RATE column: rationals and the IEEE special
    values that float division produces. *)
Inductive float := Fin (q : Qc) | PInf | NInf | NaN.

#[global] Instance float_eq_dec : EqDecision float.
Proof. solve_decision. Defined.

Definition of_cell (x : option Qc) : float :=
  match x with Some v => Fin v | None => NaN end.

Definition is_nan (x : float) : bool :=
  match x with NaN => true | _ => false end.

(** The infinity a non-zero finite value turns into, by its sign. *)
Definition inf_like (x : Qc) : float :=
  if bool_decide (0 < x)%Qc then PInf else NInf.

Definition fneg (a : float) : float :=
  match a with
  | Fin x => Fin (- x)%Qc
  | PInf => NInf
  | NInf => PInf
  | NaN => NaN
  end.

Definition fadd (a b : float) : float :=
  match a, b with
  | NaN, _ | _, NaN => NaN
  | Fin x, Fin y => Fin (x + y)%Qc
  | PInf, NInf | NInf, PInf => NaN
  | PInf, _ | _, PInf => PInf
  | NInf, _ | _, NInf => NInf
  end.

Definition fsub (a b : float) : float := fadd a (fneg b).

Definition fmul (a b : float) : float :=
  match a, b with
  | NaN, _ | _, NaN => NaN
  | Fin x, Fin y => Fin (x * y)%Qc
  | Fin x, PInf | PInf, Fin x =>
      if bool_decide (x = 0%Qc) then NaN else inf_like x
  | Fin x, NInf | NInf, Fin x =>
      if bool_decide (x = 0%Qc) then NaN else fneg (inf_like x)
  | PInf, PInf | NInf, NInf => PInf
  | PInf, NInf | NInf, PInf => NInf
  end.

(** Float division never raises: x/0 is an infinity of the sign of x, and 0/0
    is NaN (the zero of a sum of amounts is +0). *)
Definition fdiv (a b : float) : float :=
  match a, b with
  | NaN, _ | _, NaN => NaN
  | Fin x, Fin y =>
      if bool_decide (y = 0%Qc)
      then (if bool_decide (x = 0%Qc) then NaN else inf_like x)
      else Fin (x / y)%Qc
  | Fin _, PInf | Fin _, NInf => Fin 0%Qc
  | PInf, Fin y => if bool_decide (0 <= y)%Qc then PInf else NInf
  | NInf, Fin y => if bool_decide (0 <= y)%Qc then NInf else PInf
  | PInf, PInf | PInf, NInf | NInf, PInf | NInf, NInf => NaN
  end.

(** The order of floats that are not NaN. *)
Definition float_leb (a b : float) : bool :=
  match a, b with
  | NInf, _ => true
  | _, PInf => true
  | Fin x, Fin y => bool_decide (x <= y)%Qc
  | _, _ => false
  end.

(** A cell of the (month, product) table of line 151. *)
Record Cell := { c_month : Z; c_PRODUCT : string; c_TOTAL : Qc }.

(** The order of the two group keys: by month, then by product. *)
Definition key_le : relation (Z * string) :=
  fun a b => a.1 < b.1 \/ (a.1 = b.1 /\ String.le a.2 b.2).

#[global] Instance key_le_dec : RelDecision key_le.
Proof. intros a b. unfold key_le. apply _. Defined.

Definition trend_key (r : Row) : Z * string := (row_month r, PRODUCT_DETAILS r).

(** Line 151:
    [filtered_df.groupby([pd.Grouper(key='ARRIVAL DATE', freq='ME'), 'PRODUCT DETAILS'])
       ['TOTAL VALUE'].sum().reset_index()].
    With a second key next to the time grouper, a row is produced for each
    (month, product) pair that has rows, and for no other. *)
Definition trend_cells (filtered_df : DataFrame) : list Cell :=
  map (fun kv => {| c_month := kv.1.1; c_PRODUCT := kv.1.2; c_TOTAL := kv.2 |})
      (groupby_sum key_le trend_key TOTAL_VALUE filtered_df).

Record TrendRow := {
  tr_month : Z;
  tr_PRODUCT : string;
  tr_TOTAL : Qc;
  tr_PREV : option Qc;
  tr_GROWTH : float
}.

(** Line 153: [(TOTAL VALUE - PREV TOTAL VALUE) / PREV TOTAL VALUE * 100] *)
Definition growth_rate (total : Qc) (prev : option Qc) : float :=
  fmul (fdiv (fsub (Fin total) (of_cell prev)) (of_cell prev)) (Fin (Qc_of_Z 100)).

Definition same_product (c d : Cell) : bool :=
  String.eqb (c_PRODUCT d) (c_PRODUCT c).

(** Lines 152-153.  [groupby('PRODUCT DETAILS')['TOTAL VALUE'].shift(1)] gives a
    row the TOTAL VALUE of the row before it in its product group, NaN when
    there is none.  [seen] holds the rows already passed, the latest first. *)
Fixpoint with_growth (seen : list Cell) (cells : list Cell) : list TrendRow :=
  match cells with
  | [] => []
  | c :: rest =>
      let prev := option_map c_TOTAL (List.find (same_product c) seen) in
      {| tr_month := c_month c; tr_PRODUCT := c_PRODUCT c; tr_TOTAL := c_TOTAL c;
         tr_PREV := prev; tr_GROWTH := growth_rate (c_TOTAL c) prev |}
      :: with_growth (c :: seen) rest
  end.

(** [notna] on every column of a trend row. *)
Definition trend_notna (t : TrendRow) : bool :=
  match tr_PREV t with
  | None => false
  | Some _ => negb (is_nan (tr_GROWTH t))
  end.

(** Line 154: [trend_df.dropna()] *)
Definition dropna (rows : list TrendRow) : list TrendRow :=
  List.filter trend_notna rows.

(** Lines 151-154. *)
Definition trend_df (filtered_df : DataFrame) : list TrendRow :=
  dropna (with_growth [] (trend_cells filtered_df)).

(** [Series.mean()]: NaN values are skipped; the mean of nothing is NaN. *)
Definition series_mean (s : list float) : float :=
  let vals := List.filter (fun x => negb (is_nan x)) s in
  fdiv (fold_right fadd (Fin 0%Qc) vals) (Fin (Qc_of_Z (Z.of_nat (length vals)))).

(** [trend_df.groupby('PRODUCT DETAILS')['GROWTH RATE'].mean()] *)
Definition mean_growth (trend : list TrendRow) : list (string * float) :=
  map (fun p => (p, series_mean
                      (map tr_GROWTH
                         (List.filter (fun t => String.eqb (tr_PRODUCT t) p) trend))))
      (merge_sort String.le (remove_dups (map tr_PRODUCT trend))).

(** [Series.nlargest(n)]: the entries that are not NaN by decreasing value
    (equal values in the order of the series), then the NaN entries in the
    order of the series; the first n of these.  So a NaN entry is returned
    only when fewer than n entries are not NaN. *)
Definition series_nlargest {A} (n : nat) (val : A -> float) (l : list A) : list A :=
  firstn n (stable_sort (fun a b => float_leb (val b) (val a))
                        (List.filter (fun a => negb (is_nan (val a))) l)
            ++ List.filter (fun a => is_nan (val a)) l).

(** Line 156. *)
Definition top_growth_products (trend : list TrendRow) : list (string * float) :=
  series_nlargest 5 snd (mean_growth trend).

(* ===================================================================== *)
(** ** Sidebar: bounds, options and initial selections                    *)
(* ===================================================================== *)

Definition date_eqb (a b : date) : bool :=
  (year a =? year b) && (month a =? month b) && (day a =? day b).

(** Timestamps are ordered by date, then by time of day. *)
Definition timestamp_le (a b : Timestamp) : bool :=
  if date_eqb (ts_date a) (ts_date b)
  then ts_time a <=? ts_time b
  else date_le (ts_date a) (ts_date b).

Definition ts_min (a b : Timestamp) : Timestamp := if timestamp_le a b then a else b.
Definition ts_max (a b : Timestamp) : Timestamp := if timestamp_le a b then b else a.

(** Lines 43-44: [shipping_df['ARRIVAL DATE'].min().date()] and the same with
    [max].  A frame without rows has no smallest timestamp ([None]). *)
Definition min_date (shipping_df : DataFrame) : option date :=
  match map ARRIVAL_DATE shipping_df with
  | [] => None
  | t :: ts => Some (dt_date (fold_right ts_min t ts))
  end.

Definition max_date (shipping_df : DataFrame) : option date :=
  match map ARRIVAL_DATE shipping_df with
  | [] => None
  | t :: ts => Some (dt_date (fold_right ts_max t ts))
  end.

(** [Series.unique()]: the distinct values, in order of first appearance. *)
Fixpoint unique (l : list string) : list string :=
  match l with
  | [] => []
  | x :: l' => x :: List.filter (fun y => negb (String.eqb y x)) (unique l')
  end.

(** Lines 53-58: the importers offered, and the ones selected when the page
    opens: [importers[:5]]. *)
Definition importers (filtered_df : DataFrame) : list string :=
  unique (map IMPORTER_NAME filtered_df).

Definition default_importers (filtered_df : DataFrame) : list string :=
  firstn 5 (importers filtered_df).

(** Lines 60 and 63: [['All'] + list(filtered_df[col].unique())]. *)
Definition country_options (col : Row -> string) (filtered_df : DataFrame) : list string :=
  "All" :: unique (map col filtered_df).

(** The selections of a page just opened: both date inputs at their bounds
    (lines 47-48), the first five importers, and the first option, 'All', of
    both country boxes. *)
Definition initial_spec (shipping_df : DataFrame) : option FilterSpec :=
  match min_date shipping_df, max_date shipping_df with
  | Some lo, Some hi =>
      Some {| start_date := lo; end_date := hi;
              selected_importers := default_importers (date_filter lo hi shipping_df);
              selected_importer_country := "All";
              selected_exporter_country := "All" |}
  | _, _ => None
  end.

(* ===================================================================== *)
(** ** The totals in binary64                                             *)
(* ===================================================================== *)

(** The sums above are exact; the script adds float64 values, and every
    addition rounds.  Here the Total Value metric (line 137), the monthly
    buckets (line 97) and the per-country totals (line 105) are computed from
    the same rows with the machine operations, in the order in which pandas
    and numpy apply them. *)

(** The float64 value of an integer (exact below 2^53). *)
Fixpoint float64_of_pos (p : positive) : PrimFloat.float :=
  match p with
  | xH => PrimFloat.one
  | xO p' => PrimFloat.mul PrimFloat.two (float64_of_pos p')
  | xI p' => PrimFloat.add (PrimFloat.mul PrimFloat.two (float64_of_pos p')) PrimFloat.one
  end.

Definition float64_of_Z (z : Z) : PrimFloat.float :=
  match z with
  | Z0 => PrimFloat.zero
  | Zpos p => float64_of_pos p
  | Zneg p => PrimFloat.opp (float64_of_pos p)
  end.

(** What [pd.read_csv] stores for an amount written in decimal: the float64
    nearest to it, which for a fraction of two integers below 2^53 is their
    rounded quotient.  An empty cell is NaN. *)
Definition float64_of_amount (q : Qc) : PrimFloat.float :=
  PrimFloat.div (float64_of_Z (Qnum q)) (float64_of_pos (Qden q)).

Definition cell64 (x : option Qc) : PrimFloat.float :=
  match x with Some q => float64_of_amount q | None => PrimFloat.nan end.

(** [Series.fillna(0)] on one float64 cell. *)
Definition fillna0_64 (x : PrimFloat.float) : PrimFloat.float :=
  if PrimFloat.is_nan x then PrimFloat.zero else x.

(** Line 96 on one row. *)
Definition row_total64 (r : Row) : PrimFloat.float :=
  PrimFloat.add (fillna0_64 (cell64 (IMPORT_VALUE_CIF r)))
                (fillna0_64 (cell64 (IMPORT_VALUE_FOB r))).

(** numpy's sum of a float64 array (pairwise summation).  Fewer than eight
    values are added from the first to the last.  Up to 128 values are added
    into eight running sums, the value at index i into sum number i mod 8, as
    long as eight values remain; the eight sums are then added in pairs, and
    the values left over one by one.  A longer array is cut in two near the
    middle, at a multiple of eight, and the sums of the halves are added. *)
Fixpoint add_blocks (fuel : nat) (r s : list PrimFloat.float)
  : list PrimFloat.float * list PrimFloat.float :=
  match fuel with
  | O => (r, s)
  | S fuel' =>
      if (8 <=? length s)%nat
      then add_blocks fuel' (zip_with PrimFloat.add r (firstn 8 s)) (skipn 8 s)
      else (r, s)
  end.

Definition sum_in_blocks (s : list PrimFloat.float) : PrimFloat.float :=
  let '(r, rest) := add_blocks (length s) (firstn 8 s) (skipn 8 s) in
  match r with
  | [r0; r1; r2; r3; r4; r5; r6; r7] =>
      fold_left PrimFloat.add rest
        (PrimFloat.add
           (PrimFloat.add (PrimFloat.add r0 r1) (PrimFloat.add r2 r3))
           (PrimFloat.add (PrimFloat.add r4 r5) (PrimFloat.add r6 r7)))
  | _ => fold_left PrimFloat.add s PrimFloat.neg_zero
  end.

Fixpoint pairwise_sum (fuel : nat) (s : list PrimFloat.float) : PrimFloat.float :=
  let n := length s in
  if (n <? 8)%nat then fold_left PrimFloat.add s PrimFloat.neg_zero
  else if (n <=? 128)%nat then sum_in_blocks s
  else
    match fuel with
    | O => sum_in_blocks s
    | S fuel' =>
        let n2 := (n / 2 - (n / 2) mod 8)%nat in
        PrimFloat.add (pairwise_sum fuel' (firstn n2 s)) (pairwise_sum fuel' (skipn n2 s))
    end.

(** [Series.sum()]: the NaN cells count as 0, and the sum starts from 0. *)
Definition series_sum64 (s : list PrimFloat.float) : PrimFloat.float :=
  PrimFloat.add PrimFloat.zero (pairwise_sum (length s) (map fillna0_64 s)).

(** [groupby(...).sum()] adds the values of a group from the first to the last
    with a running compensation for the rounding of each addition (Kahan
    summation); NaN cells are skipped. *)
Definition kahan_step (acc : PrimFloat.float * PrimFloat.float) (val : PrimFloat.float)
  : PrimFloat.float * PrimFloat.float :=
  let '(sumx, compensation) := acc in
  if PrimFloat.is_nan val then acc
  else
    let y := PrimFloat.sub val compensation in
    let t := PrimFloat.add sumx y in
    let c := PrimFloat.sub (PrimFloat.sub t sumx) y in
    (t, if PrimFloat.is_nan c then PrimFloat.zero else c).

Definition group_sum64 (vals : list PrimFloat.float) : PrimFloat.float :=
  fst (fold_left kahan_step vals (PrimFloat.zero, PrimFloat.zero)).

(** Line 137, on the rows of [filtered_df]. *)
Definition total_value64 (filtered_df : DataFrame) : PrimFloat.float :=
  series_sum64 (map row_total64 filtered_df).

(** A time grouper first puts the rows in the order of the timestamps (rows of
    the same timestamp stay in the order of the frame), so a monthly bucket
    adds the values of its rows from the earliest to the latest. *)
Definition sort_by_arrival (df : DataFrame) : DataFrame :=
  stable_sort (fun a b => timestamp_le (ARRIVAL_DATE a) (ARRIVAL_DATE b)) df.

(** Line 97: the monthly buckets. *)
Definition time_series64 (filtered_df : DataFrame) : list (Z * PrimFloat.float) :=
  map (fun k => (k, group_sum64
                      (map row_total64
                           (group_rows row_month k (sort_by_arrival filtered_df)))))
      (month_bins filtered_df).

(** Line 105: the per-country totals. *)
Definition geo64 (filtered_df : DataFrame) : list (string * PrimFloat.float) :=
  map (fun c => (c, group_sum64 (map row_total64 (group_rows IMPORTER_COUNTRY c filtered_df))))
      (group_keys String.le IMPORTER_COUNTRY filtered_df).

(* ===================================================================== *)
(** ** One render cycle over the object store                             *)
(* ===================================================================== *)

(** Frames are Python objects: [filtered_df['TOTAL VALUE'] = ...] updates the
    object the name is bound to, in place.  The store maps object identities
    to frames; [files] is the content of `data/<company>.csv` and [cache] the
    entries of [st.cache_data], keyed by company. *)
Definition loc := nat.

Record state := {
  files : gmap string DataFrame;
  cache : gmap string DataFrame;
  heap : gmap loc DataFrame
}.

(** [FileNotFoundError]: [pd.read_csv] on a missing file.  [DateBoundError]:
    line 43 on a frame without rows, where [.min()] has no timestamp of which
    [.date()] could be taken.  [DanglingObject]: a name bound to no object
    (never raised by [render], whose names are all bound before use). *)
Inductive exn := FileNotFoundError | DateBoundError | DanglingObject.

Definition M (A : Type) : Type := state -> exn + (A * state).

#[global] Instance M_ret : MRet M := fun A (a : A) st => inr (a, st).

#[global] Instance M_bind : MBind M := fun A B (k : A -> M B) (m : M A) st =>
  match m st with
  | inl e => inl e
  | inr (a, st') => k a st'
  end.

Definition raise {A} (e : exn) : M A := fun _ => inl e.

(** A new object holding [df]. *)
Definition new_frame (df : DataFrame) : M loc := fun st =>
  let l := fresh (dom (heap st)) in
  inr (l, {| files := files st; cache := cache st; heap := <[l := df]> (heap st) |}).

Definition read_frame (l : loc) : M DataFrame := fun st =>
  match heap st !! l with
  | Some df => inr (df, st)
  | None => raise DanglingObject st
  end.

(** [df[mask]]: boolean indexing builds a new frame from the selected rows. *)
Definition getitem_mask (l : loc) (mask : Row -> bool) : M loc :=
  df ← read_frame l; new_frame (List.filter mask df).

(** [df[col] = ...]: the frame at [l] is updated in place. *)
Definition setitem (l : loc) (f : DataFrame -> DataFrame) : M unit := fun st =>
  match heap st !! l with
  | Some df =>
      inr (tt, {| files := files st; cache := cache st; heap := <[l := f df]> (heap st) |})
  | None => raise DanglingObject st
  end.

(** Lines 16-22.  [st.cache_data] keeps the value of the first call for a
    company and hands out a copy of it on every call; [pd.read_csv] fails when
    the file does not exist.  A file that exists is taken to be a CSV file with
    the columns of [Row]: the other failures of [pd.read_csv] are outside this
    model. *)
Definition get_shipping_data (company : string) : M loc := fun st =>
  match cache st !! company with
  | Some df => new_frame df st
  | None =>
      match files st !! company with
      | Some df =>
          new_frame df {| files := files st; cache := <[company := df]> (cache st);
                          heap := heap st |}
      | None => raise FileNotFoundError st
      end
  end.

(** Lines 43-44: the bounds of the date inputs; the cycle stops here when the
    frame has no row. *)
Definition date_bounds (shipping_df : loc) : M (date * date) :=
  df ← read_frame shipping_df;
  match min_date df, max_date df with
  | Some lo, Some hi => mret (lo, hi)
  | _, _ => raise DateBoundError
  end.

(** Lines 40-120, the statements that read, bind or update a frame: the result
    is the objects [shipping_df] and [filtered_df] are bound to at the end.
    The widgets and the charts in between work on values computed from the
    frames and do not touch them; they are not part of this model, and neither
    are their failures: the cycle of the page can stop at one of them where
    [render] goes on. *)
Definition render (selected_company : string) (spec : FilterSpec) : M (loc * loc) :=
  shipping_df ← get_shipping_data selected_company;
  _ ← date_bounds shipping_df;
  filtered_df ← getitem_mask shipping_df (in_range (start_date spec) (end_date spec));
  filtered_df ←
    (if truthy (selected_importers spec)
     then getitem_mask filtered_df
            (fun r => isin (selected_importers spec) (IMPORTER_NAME r))
     else mret filtered_df);
  filtered_df ←
    (if negb (String.eqb (selected_importer_country spec) "All")
     then getitem_mask filtered_df
            (fun r => String.eqb (IMPORTER_COUNTRY r) (selected_importer_country spec))
     else mret filtered_df);
  filtered_df ←
    (if negb (String.eqb (selected_exporter_country spec) "All")
     then getitem_mask filtered_df
            (fun r => String.eqb (COUNTRY_OF_ORIGIN r) (selected_exporter_country spec))
     else mret filtered_df);
  _ ← setitem filtered_df derive_total_value;
  _ ← setitem filtered_df replace_pieces;
  mret (shipping_df, filtered_df).

(** What [get_shipping_data] returns for a company: the cached frame, or else
    the content of its file. *)
Definition source (st : state) (company : string) : option DataFrame :=
  match cache st !! company with
  | Some df => Some df
  | None => files st !! company
  end.

(* ===================================================================== *)
(** ** Steps 11 and 12: drill-downs                                       *)
(* ===================================================================== *)


(** The first option of a select box, its value when the page opens. *)
Definition first_option (options : list string) : option string :=
  match options with [] => None | v :: _ => Some v end.






(** Two render cycles for the same company, the second one with the files of
    the data directory as they are then. *)
Definition set_files (fs : gmap string DataFrame) : M unit := fun st =>
  inr (tt, {| files := fs; cache := cache st; heap := heap st |}).

Definition load_twice (company : string) (later_files : gmap string DataFrame)
  : M (loc * loc) :=
  first ← get_shipping_data company;
  _ ← set_files later_files;
  second ← get_shipping_data company;
  mret (first, second).

(* ===================================================================== *)
(** ** Sample data                                                        *)
(* ===================================================================== *)

Definition at_midnight (y m d : Z) : Timestamp :=
  {| ts_date := Date y m d; ts_time := 0 |}.

Definition mk_row (t : Timestamp) (imp country prod : string) (cif fob : option Qc) : Row :=
  {| ARRIVAL_DATE := t; IMPORTER_NAME := imp; IMPORTER_COUNTRY := country;
     COUNTRY_OF_ORIGIN := "India"; PRODUCT_DETAILS := prod;
     IMPORT_VALUE_CIF := cif; IMPORT_VALUE_FOB := fob;
     QUANTITY := Some (Qc_of_Z 1); QUANTITY_UNIT := "PCS"; TOTAL_VALUE := None |}.

Definition all_spec (s e : date) (sel : list string) : FilterSpec :=
  {| start_date := s; end_date := e; selected_importers := sel;
     selected_importer_country := "All"; selected_exporter_country := "All" |}.

(** A file with records in January and March 2024, none in February. *)
Definition gap_csv : DataFrame :=
  [ mk_row (at_midnight 2024 1 5) "Acme" "US" "Valve" (Some (Qc_of_Z 100)) None;
    mk_row {| ts_date := Date 2024 1 28; ts_time := 3600 |} "Acme" "US" "Valve"
           None (Some (Qc_of_Z 50));
    mk_row (at_midnight 2024 3 1) "Bolt" "DE" "Pump" (Some (Qc_of_Z 7)) None ].

Definition gap_df : DataFrame := derive_total_value gap_csv.

(** Three importers, one of them with two records. *)
Definition three_df : DataFrame :=
  [ mk_row (at_midnight 2024 1 5) "Acme" "US" "Valve" (Some (Qc_of_Z 10)) None;
    mk_row (at_midnight 2024 1 6) "Bolt" "DE" "Pump" (Some (Qc_of_Z 30)) None;
    mk_row (at_midnight 2024 1 7) "Core" "FR" "Valve" None None;
    mk_row (at_midnight 2024 1 8) "Acme" "US" "Pump" (Some (Qc_of_Z 5)) (Some (Qc_of_Z 1)) ].

(** Both amounts absent. *)
Definition blank_row : Row :=
  mk_row (at_midnight 2024 1 7) "Core" "FR" "Valve" None None.

(** One record under the legacy unit label, one under 'PCS'. *)
Definition pieces_df : DataFrame := [set_QUANTITY_UNIT "Pieces" blank_row; blank_row].

(** A state without files and without cache. *)
Definition no_data : state := {| files := ∅; cache := ∅; heap := ∅ |}.

(** A first render cycle: the file of the company exists, nothing is cached. *)
Definition first_run : state :=
  {| files := {[ "JVS" := gap_csv ]}; cache := ∅; heap := ∅ |}.

Definition jan_feb_df : DataFrame :=
  derive_total_value
    [ mk_row (at_midnight 2024 2 10) "Acme" "US" "P" (Some (Qc_of_Z 150)) None;
      mk_row (at_midnight 2024 1 5) "Acme" "US" "P" (Some (Qc_of_Z 60)) (Some (Qc_of_Z 40)) ].

Definition zero_df : DataFrame :=
  derive_total_value
    [ mk_row (at_midnight 2024 1 5) "Acme" "US" "Z" (Some (Qc_of_Z 0)) None;
      mk_row (at_midnight 2024 4 28) "Acme" "US" "Z" (Some (Qc_of_Z 100)) (Some (Qc_of_Z 50)) ].

(** Amounts of 0.1, 0.2 and 0.4: the first and the last in January for a US
    importer, the second in February for a German one. *)
Definition dimes_df : DataFrame :=
  [ mk_row (at_midnight 2024 1 5) "Acme" "US" "Valve" (Some (Q2Qc (1 # 10))) None;
    mk_row (at_midnight 2024 2 6) "Bolt" "DE" "Pump" (Some (Q2Qc (2 # 10))) None;
    mk_row (at_midnight 2024 1 9) "Acme" "US" "Valve" (Some (Q2Qc (4 # 10))) None ].

(* ===================================================================== *)
(** ** Vocabulary of the properties                                       *)
(* ===================================================================== *)

(** The amounts of a column that are present, in the order of the column. *)
Definition present (s : list (option Qc)) : list Qc := omap id s.


(** The sum of a list of group totals. *)
Definition qsum (l : list Qc) : Qc := fold_right Qcplus 0%Qc l.

(** Some record of the product falls in the month. *)
Definition populated (df : DataFrame) (m : Z) (p : string) : Prop :=
  exists r, In r df /\ row_month r = m /\ PRODUCT_DETAILS r = p.

(** The TOTAL VALUE of a product summed over a month. *)
Definition cell_total (df : DataFrame) (m : Z) (p : string) : Qc :=
  series_sum (map TOTAL_VALUE (group_rows trend_key (m, p) df)).

Definition ckey (c : Cell) : Z * string := (c_month c, c_PRODUCT c).

Definition trend_row (c : Cell) (prev : option Qc) : TrendRow :=
  {| tr_month := c_month c; tr_PRODUCT := c_PRODUCT c; tr_TOTAL := c_TOTAL c;
     tr_PREV := prev; tr_GROWTH := growth_rate (c_TOTAL c) prev |}.

Definition prev_in (seen : list Cell) (c : Cell) : option Qc :=
  option_map c_TOTAL (List.find (same_product c) seen).

Definition is_fin (x : float) : bool :=
  match x with Fin _ => true | _ => false end.

Definition show_trend (t : TrendRow) : Z * string * option Q :=
  (tr_month t, tr_PRODUCT t,
   match tr_GROWTH t with Fin q => Some (this q) | _ => None end).

Definition tkey (t : TrendRow) : Z * string := (tr_month t, tr_PRODUCT t).

(** The growth rates of one product in the trend table. *)
Definition growths_of (p : string) (trend : list TrendRow) : list float :=
  map tr_GROWTH (List.filter (fun t => String.eqb (tr_PRODUCT t) p) trend).

Definition is_pinf (x : float) : bool := match x with PInf => true | _ => false end.
Definition is_ninf (x : float) : bool := match x with NInf => true | _ => false end.

(** The value of a finite float (0 for the others). *)
Definition fin_value (x : float) : Qc := match x with Fin q => q | _ => 0%Qc end.

(** The four predicates of the filter engine on one record. *)
Definition passes (spec : FilterSpec) (r : Row) : bool :=
  in_range (start_date spec) (end_date spec) r
  && (negb (truthy (selected_importers spec))
      || isin (selected_importers spec) (IMPORTER_NAME r))
  && (String.eqb (selected_importer_country spec) "All"
      || String.eqb (IMPORTER_COUNTRY r) (selected_importer_country spec))
  && (String.eqb (selected_exporter_country spec) "All"
      || String.eqb (COUNTRY_OF_ORIGIN r) (selected_exporter_country spec)).

(** A calendar date: month 1 to 12, day 1 to the length of the month. *)
Definition valid_date (d : date) : Prop :=
  1 <= month d <= 12 /\ 1 <= day d <= days_in_month (year d) (month d).

(* ===================================================================== *)
(** ** Date filter                                                        *)
(* ===================================================================== *)

Lemma date_le_trans a b c :
  date_le a b = true -> date_le b c = true -> date_le a c = true.
Proof.
  unfold date_le. destruct a as [ya ma da], b as [yb mb db], c as [yc mc dc]; simpl.
  rewrite !orb_true_iff, !andb_true_iff, !orb_true_iff, !andb_true_iff.
  rewrite !Z.ltb_lt, !Z.eqb_eq, !Z.leb_le. lia.
Qed.

Lemma in_range_narrow s e s' e' r :
  date_le s s' = true -> date_le e' e = true ->
  in_range s' e' r = true -> in_range s e r = true.
Proof.
  unfold in_range. rewrite !andb_true_iff. intros Hs He [H1 H2]. split.
  - apply (date_le_trans _ _ _ Hs H1).
  - apply (date_le_trans _ _ _ H2 He).
Qed.

Lemma filter_length_le {A} (f g : A -> bool) (l : list A) :
  (forall x, f x = true -> g x = true) ->
  (length (List.filter f l) <= length (List.filter g l))%nat.
Proof.
  intros Hfg. induction l as [|x l IH]; simpl; [lia|].
  destruct (f x) eqn:Hf.
  - rewrite (Hfg _ Hf). simpl. lia.
  - destruct (g x); simpl; lia.
Qed.

(** C5.  Every record kept by the date filter has its date (the date-only part
    of ARRIVAL DATE, whatever the time of day) between the bounds, both
    inclusive; and a narrower range keeps at most as many rows. *)
Theorem date_filter_inclusive_monotone (R : DataFrame) (s e : date) :
  (forall r, In r (date_filter s e R) ->
     date_le s (ts_date (ARRIVAL_DATE r)) = true /\
     date_le (ts_date (ARRIVAL_DATE r)) e = true)
  /\ (forall r, In r R ->
        date_le s (ts_date (ARRIVAL_DATE r)) = true ->
        date_le (ts_date (ARRIVAL_DATE r)) e = true ->
        In r (date_filter s e R))
  /\ (forall s' e', date_le s s' = true -> date_le e' e = true ->
        (length (date_filter s' e' R) <= length (date_filter s e R))%nat).
Proof.
  repeat split.
  - apply filter_In in H as [_ H]. unfold in_range in H.
    apply andb_true_iff in H. apply H.
  - apply filter_In in H as [_ H]. unfold in_range in H.
    apply andb_true_iff in H. apply H.
  - intros r Hin Hs He. apply filter_In. split; [exact Hin|].
    unfold in_range, dt_date. now rewrite Hs, He.
  - intros s' e' Hs He. apply filter_length_le. intros r.
    now apply in_range_narrow.
Qed.

(* ===================================================================== *)
(** ** The source frame is never updated                                  *)
(* ===================================================================== *)

Lemma bind_run {A B} (m : M A) (k : A -> M B) (st : state) :
  (m ≫= k) st = match m st with inl e => inl e | inr (a, st') => k a st' end.
Proof. reflexivity. Qed.

Lemma fresh_loc_unused (st : state) : heap st !! fresh (dom (heap st)) = None.
Proof. apply not_elem_of_dom. apply is_fresh. Qed.

(** Boolean indexing returns an object that did not exist before, and touches
    no other object. *)
Lemma getitem_mask_spec (l : loc) (mask : Row -> bool) (st : state) (df : DataFrame) :
  heap st !! l = Some df ->
  exists l' st',
    getitem_mask l mask st = inr (l', st')
    /\ heap st !! l' = None
    /\ heap st' = <[l' := List.filter mask df]> (heap st)
    /\ cache st' = cache st.
Proof.
  intros Hl. exists (fresh (dom (heap st))). eexists.
  unfold getitem_mask. rewrite bind_run. unfold read_frame. rewrite Hl.
  unfold new_frame. split; [reflexivity|]. simpl.
  split; [apply fresh_loc_unused|]. split; reflexivity.
Qed.

(** A filter step, taken or not, on the frame [l].  [old] is a set of objects
    with their contents: when they are all alive, other than [l] and unchanged
    before the step, they are alive, other than the returned frame and
    unchanged after it. *)
Lemma mask_step_spec (c : bool) (l : loc) (mask : Row -> bool) (st : state)
      (df : DataFrame) (old : gmap loc DataFrame) :
  heap st !! l = Some df ->
  (forall l0, is_Some (old !! l0) -> l0 <> l /\ heap st !! l0 = old !! l0) ->
  exists l' st',
    (if c then getitem_mask l mask else mret l) st = inr (l', st')
    /\ heap st' !! l' = Some (if c then List.filter mask df else df)
    /\ cache st' = cache st
    /\ (forall l0, is_Some (old !! l0) -> l0 <> l' /\ heap st' !! l0 = old !! l0).
Proof.
  intros Hl Hold. destruct c.
  - destruct (getitem_mask_spec l mask st df Hl) as (l' & st' & Hrun & Hnew & Hheap & Hc).
    exists l', st'. split; [exact Hrun|]. rewrite Hheap.
    split; [apply lookup_insert_eq|]. split; [exact Hc|].
    intros l0 Hl0. destruct (Hold l0 Hl0) as [_ E].
    assert (l0 <> l') as Hne.
    { intros ->. rewrite Hnew in E. rewrite <- E in Hl0. by destruct Hl0. }
    split; [exact Hne|]. rewrite lookup_insert_ne by done. exact E.
  - exists l, st. split; [reflexivity|]. auto.
Qed.

Lemma setitem_spec (l : loc) (f : DataFrame -> DataFrame) (st : state) (df : DataFrame)
      (old : gmap loc DataFrame) :
  heap st !! l = Some df ->
  (forall l0, is_Some (old !! l0) -> l0 <> l /\ heap st !! l0 = old !! l0) ->
  exists st',
    setitem l f st = inr (tt, st')
    /\ heap st' !! l = Some (f df)
    /\ cache st' = cache st
    /\ (forall l0, is_Some (old !! l0) -> l0 <> l /\ heap st' !! l0 = old !! l0).
Proof.
  intros Hl Hold. unfold setitem. rewrite Hl. eexists. split; [reflexivity|]. simpl.
  split; [apply lookup_insert_eq|]. split; [reflexivity|].
  intros l0 Hl0. destruct (Hold l0 Hl0) as [Hne E].
  split; [exact Hne|]. rewrite lookup_insert_ne by done. exact E.
Qed.

(** Loading: the returned frame is a new object holding the cached (or read)
    frame, which is the cache entry from then on. *)
Lemma get_shipping_data_spec (company : string) (st : state) (df0 : DataFrame) :
  source st company = Some df0 ->
  exists s st',
    get_shipping_data company st = inr (s, st')
    /\ heap st !! s = None
    /\ heap st' = <[s := df0]> (heap st)
    /\ cache st' !! company = Some df0.
Proof.
  unfold source, get_shipping_data. intros Hsrc.
  destruct (cache st !! company) as [df|] eqn:Hc.
  - injection Hsrc as ->. exists (fresh (dom (heap st))). eexists.
    split; [reflexivity|]. simpl. split; [apply fresh_loc_unused|].
    split; [reflexivity|exact Hc].
  - rewrite Hsrc. exists (fresh (dom (heap st))). eexists.
    split; [reflexivity|]. simpl. split; [apply fresh_loc_unused|].
    split; [reflexivity|apply lookup_insert_eq].
Qed.

Lemma date_bounds_spec (l : loc) (st : state) (df : DataFrame) :
  heap st !! l = Some df ->
  (df = [] -> date_bounds l st = inl DateBoundError)
  /\ (df <> [] -> exists b, date_bounds l st = inr (b, st)).
Proof.
  intros Hl. unfold date_bounds. rewrite bind_run. unfold read_frame. rewrite Hl.
  split.
  - intros ->. reflexivity.
  - intros Hne. destruct df as [|r df]; [contradiction|].
    unfold min_date, max_date. simpl. eexists. reflexivity.
Qed.

(** What a render cycle that gets past the date bounds returns. *)
Lemma render_result (company : string) (spec : FilterSpec)
      (st : state) (df0 : DataFrame) :
  source st company = Some df0 ->
  df0 <> [] ->
  exists s f st',
    render company spec st = inr ((s, f), st')
    /\ heap st' !! s = Some df0
    /\ cache st' !! company = Some df0
    /\ s <> f
    /\ heap st' !! f
       = Some (replace_pieces (derive_total_value (apply_filters spec df0)))
    /\ (forall l, is_Some (heap st !! l) -> heap st' !! l = heap st !! l).
Proof.
  intros Hsrc Hrows.
  destruct (get_shipping_data_spec company st df0 Hsrc)
    as (s & st1 & Hrun1 & Hnew1 & Hheap1 & Hc1).
  assert (Hs1 : heap st1 !! s = Some df0) by (rewrite Hheap1; apply lookup_insert_eq).
  destruct (date_bounds_spec s st1 df0 Hs1) as [_ Hbounds].
  destruct (Hbounds Hrows) as (bounds & Hrun1').
  (* line 50: [filtered_df] is a new object; from here on the objects of [st1],
     [shipping_df] among them, are the ones to keep *)
  destruct (getitem_mask_spec s (in_range (start_date spec) (end_date spec)) st1 df0 Hs1)
    as (f2 & st2 & Hrun2 & Hnew2 & Hheap2 & Hc2).
  assert (Hf2 : heap st2 !! f2
                = Some (List.filter (in_range (start_date spec) (end_date spec)) df0))
    by (rewrite Hheap2; apply lookup_insert_eq).
  assert (Hold2 : forall l0, is_Some (heap st1 !! l0) ->
                    l0 <> f2 /\ heap st2 !! l0 = heap st1 !! l0).
  { intros l0 Hl0. assert (l0 <> f2) as Hne.
    { intros ->. rewrite Hnew2 in Hl0. by destruct Hl0. }
    split; [exact Hne|]. rewrite Hheap2. by apply lookup_insert_ne. }
  destruct (mask_step_spec (truthy (selected_importers spec)) f2
              (fun r => isin (selected_importers spec) (IMPORTER_NAME r))
              st2 _ (heap st1) Hf2 Hold2)
    as (f3 & st3 & Hrun3 & Hf3 & Hc3 & Hold3).
  destruct (mask_step_spec (negb (String.eqb (selected_importer_country spec) "All")) f3
              (fun r => String.eqb (IMPORTER_COUNTRY r) (selected_importer_country spec))
              st3 _ (heap st1) Hf3 Hold3)
    as (f4 & st4 & Hrun4 & Hf4 & Hc4 & Hold4).
  destruct (mask_step_spec (negb (String.eqb (selected_exporter_country spec) "All")) f4
              (fun r => String.eqb (COUNTRY_OF_ORIGIN r) (selected_exporter_country spec))
              st4 _ (heap st1) Hf4 Hold4)
    as (f5 & st5 & Hrun5 & Hf5 & Hc5 & Hold5).
  (* lines 96 and 120 update [filtered_df] in place *)
  destruct (setitem_spec f5 derive_total_value st5 _ (heap st1) Hf5 Hold5)
    as (st6 & Hrun6 & Hf6 & Hc6 & Hold6).
  destruct (setitem_spec f5 replace_pieces st6 _ (heap st1) Hf6 Hold6)
    as (st7 & Hrun7 & Hf7 & Hc7 & Hold7).
  destruct (Hold7 s (ltac:(rewrite Hs1; eauto))) as [Hne Hs7].
  exists s, f5, st7. split.
  { unfold render. rewrite bind_run, Hrun1. rewrite bind_run, Hrun1'.
    rewrite bind_run, Hrun2.
    rewrite bind_run, Hrun3. rewrite bind_run, Hrun4. rewrite bind_run, Hrun5.
    rewrite bind_run, Hrun6. rewrite bind_run, Hrun7. reflexivity. }
  split; [by rewrite Hs7|].
  split; [by rewrite Hc7, Hc6, Hc5, Hc4, Hc3, Hc2|].
  split; [exact Hne|]. split; [exact Hf7|].
  intros l Hl.
  assert (l <> s) as Hls by (intros ->; rewrite Hnew1 in Hl; by destruct Hl).
  assert (heap st1 !! l = heap st !! l) as E1
      by (rewrite Hheap1; by apply lookup_insert_ne).
  destruct (Hold7 l (ltac:(rewrite E1; exact Hl))) as [_ E7].
  by rewrite E7.
Qed.

(** A frame without rows stops the cycle at the date bounds. *)
Lemma render_empty_frame (company : string) (spec : FilterSpec) (st : state) :
  source st company = Some [] -> render company spec st = inl DateBoundError.
Proof.
  intros Hsrc.
  destruct (get_shipping_data_spec company st [] Hsrc)
    as (s & st1 & Hrun1 & _ & Hheap1 & _).
  assert (Hs1 : heap st1 !! s = Some []) by (rewrite Hheap1; apply lookup_insert_eq).
  destruct (date_bounds_spec s st1 [] Hs1) as [Hfail _].
  unfold render. rewrite bind_run, Hrun1. by rewrite bind_run, (Hfail eq_refl).
Qed.

(** C9.  Whenever a render cycle has run through the filters and the two
    column assignments, the source is untouched: [shipping_df] still holds the
    loaded frame, row for row, the cache entry of the company is that frame,
    and every object that existed before the cycle is unchanged.  The frame
    that received the TOTAL VALUE column and the canonical unit is another
    object, and holds the filtered rows with these two columns set. *)
Theorem render_preserves_source (company : string) (spec : FilterSpec)
        (st st' : state) (df0 : DataFrame) (s f : loc) :
  source st company = Some df0 ->
  render company spec st = inr ((s, f), st') ->
  heap st' !! s = Some df0
  /\ cache st' !! company = Some df0
  /\ s <> f
  /\ heap st' !! f
     = Some (replace_pieces (derive_total_value (apply_filters spec df0)))
  /\ (forall l, is_Some (heap st !! l) -> heap st' !! l = heap st !! l).
Proof.
  intros Hsrc Hrun. destruct df0 as [|r df0].
  - rewrite (render_empty_frame company spec st Hsrc) in Hrun. discriminate Hrun.
  - destruct (render_result company spec st (r :: df0) Hsrc) as (s0 & f0 & st0 & Hrun0 & H);
      [discriminate|].
    rewrite Hrun in Hrun0. injection Hrun0 as <- <- <-. exact H.
Qed.

(* ===================================================================== *)
(** ** Importer selection                                                 *)
(* ===================================================================== *)

(** C1 (as stated in the specification, refuted).  With no importer selected
    the importer step does not empty the relation: the guard
    [if selected_importers:] skips the membership test. *)
Lemma empty_selection_not_empty_relation :
  ~ (forall (df : DataFrame) (spec : FilterSpec),
       selected_importers spec = [] ->
       importer_filter (selected_importers spec) df = []).
Proof.
  intros H.
  specialize (H [mk_row (at_midnight 2024 1 5) "Acme" "US" "Valve" None None]
                (all_spec (Date 2024 1 1) (Date 2024 12 31) []) eq_refl).
  discriminate H.
Qed.

(** C1 (amended).  With no importer selected the importer step is skipped and
    every record passes it: the relation is returned as it is, and the whole
    filter keeps what the date and country steps keep. *)
Theorem empty_selection_passes_all (df : DataFrame) (spec : FilterSpec) :
  selected_importers spec = [] ->
  importer_filter (selected_importers spec) df = df
  /\ apply_filters spec df
     = country_filter COUNTRY_OF_ORIGIN (selected_exporter_country spec)
         (country_filter IMPORTER_COUNTRY (selected_importer_country spec)
            (date_filter (start_date spec) (end_date spec) df)).
Proof.
  intros Hsel. unfold apply_filters, importer_filter. rewrite Hsel. simpl. auto.
Qed.

(* ===================================================================== *)
(** ** Derived total value                                                *)
(* ===================================================================== *)

Lemma series_sum_present (s : list (option Qc)) : series_sum s = qsum (present s).
Proof.
  induction s as [|[v|] s IH]; simpl; [reflexivity| |exact IH].
  unfold present in *. simpl. by rewrite IH.
Qed.

(** C6.  After line 96 every record carries a TOTAL VALUE: the sum of its two
    amounts when both are present, the one that is present when the other is
    absent, and 0 when both are absent; the other columns are as before.  The
    group totals of lines 74-75 are defined as well: the sum of the CIF
    amounts present in the group plus the sum of its FOB amounts present. *)
Theorem total_value_always_defined (df : DataFrame) :
  (forall r, In r (derive_total_value df) ->
     exists v, TOTAL_VALUE r = Some v
       /\ match IMPORT_VALUE_CIF r, IMPORT_VALUE_FOB r with
          | Some cif, Some fob => v = (cif + fob)%Qc
          | Some cif, None => v = cif
          | None, Some fob => v = fob
          | None, None => v = 0%Qc
          end)
  /\ map (set_TOTAL_VALUE None) (derive_total_value df) = map (set_TOTAL_VALUE None) df
  /\ (forall key g, In g (group_values key df) ->
        vg_CIF g = qsum (present (map IMPORT_VALUE_CIF (group_rows key (vg_key g) df)))
        /\ vg_FOB g = qsum (present (map IMPORT_VALUE_FOB (group_rows key (vg_key g) df)))
        /\ vg_TOTAL g = (vg_CIF g + vg_FOB g)%Qc).
Proof.
  split; [|split].
  - intros r Hr. unfold derive_total_value in Hr. apply in_map_iff in Hr.
    destruct Hr as (r0 & <- & _). simpl. eexists. split; [reflexivity|].
    unfold row_total.
    destruct (IMPORT_VALUE_CIF r0), (IMPORT_VALUE_FOB r0); simpl; ring.
  - unfold derive_total_value. rewrite map_map. reflexivity.
  - intros key g Hg. unfold group_values in Hg. apply in_map_iff in Hg.
    destruct Hg as (k & <- & _). simpl.
    split; [apply series_sum_present|]. split; [apply series_sum_present|reflexivity].
Qed.

(* ===================================================================== *)
(** ** Empty input                                                        *)
(* ===================================================================== *)

(** C8.  On the empty relation every ranking is empty (the unit ranking is not
    even computed: the page says there is no data), the time series, the
    rollup and the trend are empty, and the three metrics are 0. *)
Theorem aggregations_on_empty :
  (forall K key, top_by_value K key [] = [])
  /\ top_importers [] = [] /\ top_products [] = []
  /\ (forall K, top_by_quantity K [] = [])
  /\ (forall unit, top_products_by_unit (unit_rows unit []) = None)
  /\ time_series_df [] = []
  /\ geo_df [] = []
  /\ trend_df [] = []
  /\ top_growth_products (trend_df []) = []
  /\ derive_total_value [] = []
  /\ total_value [] = 0%Qc
  /\ num_shipments [] = 0%nat
  /\ num_importers [] = 0%nat.
Proof.
  repeat split.
  - intros K key. unfold top_by_value, head. simpl. apply firstn_nil.
  - intros K. unfold top_by_quantity, nlargest. simpl. apply firstn_nil.
Qed.

(* ===================================================================== *)
(** ** Group-by: keys and totals                                          *)
(* ===================================================================== *)

Lemma qsum_cons (x : Qc) (l : list Qc) : qsum (x :: l) = (x + qsum l)%Qc.
Proof. reflexivity. Qed.

Section GroupByFacts.
Context {K : Type} `{EqDecision K} (le : relation K) `{!RelDecision le}.
Variables (key : Row -> K) (col : Row -> option Qc).

Lemma group_keys_perm (df : DataFrame) :
  Permutation (group_keys le key df) (remove_dups (map key df)).
Proof. unfold group_keys. apply merge_sort_Permutation. Qed.

Lemma group_keys_NoDup (df : DataFrame) : NoDup (group_keys le key df).
Proof.
  rewrite group_keys_perm. apply NoDup_remove_dups.
Qed.

Lemma group_keys_In (df : DataFrame) (k : K) :
  In k (group_keys le key df) <-> exists r, In r df /\ key r = k.
Proof.
  rewrite <- list_elem_of_In, (group_keys_perm df), elem_of_remove_dups, list_elem_of_In.
  rewrite in_map_iff.
  split; [intros (r & E & Hr)|intros (r & Hr & E)]; exists r; auto.
Qed.

Lemma group_keys_length (df : DataFrame) :
  length (group_keys le key df) = length (remove_dups (map key df)).
Proof. apply Permutation_length, group_keys_perm. Qed.

Lemma group_rows_In (k : K) (df : DataFrame) (r : Row) :
  In r (group_rows key k df) <-> In r df /\ key r = k.
Proof.
  unfold group_rows. rewrite filter_In, bool_decide_eq_true. reflexivity.
Qed.

(** One row contributes to the total of its own key, and to no other. *)
Lemma qsum_one_key (r : Row) (f : K -> Qc) (v : Qc) (keys : list K) :
  NoDup keys ->
  qsum (map (fun k => if bool_decide (key r = k) then (v + f k)%Qc else f k) keys)
  = ((if bool_decide (key r ∈ keys) then v else 0) + qsum (map f keys))%Qc.
Proof.
  induction keys as [|k keys IH]; intros Hnd.
  - simpl. ring.
  - rewrite !map_cons, !qsum_cons.
    apply NoDup_cons in Hnd as [Hk Hnd]. rewrite (IH Hnd). clear IH.
    destruct (decide (key r = k)) as [E|E].
    + rewrite (bool_decide_eq_true_2 (key r = k)) by exact E.
      rewrite (bool_decide_eq_true_2 (key r ∈ k :: keys)) by (rewrite E; left).
      rewrite (bool_decide_eq_false_2 (key r ∈ keys)) by (rewrite E; exact Hk).
      ring.
    + rewrite (bool_decide_eq_false_2 (key r = k)) by exact E.
      destruct (decide (key r ∈ keys)) as [Hin|Hin].
      * rewrite (bool_decide_eq_true_2 (key r ∈ k :: keys)) by (right; done).
        rewrite (bool_decide_eq_true_2 (key r ∈ keys)) by exact Hin. ring.
      * rewrite (bool_decide_eq_false_2 (key r ∈ k :: keys))
          by (rewrite elem_of_cons; tauto).
        rewrite (bool_decide_eq_false_2 (key r ∈ keys)) by exact Hin. ring.
Qed.

(** Summing the group totals over a duplicate-free list of keys that covers
    the frame gives the total of the column. *)
Lemma qsum_groups (keys : list K) (df : DataFrame) :
  NoDup keys ->
  (forall r, In r df -> In (key r) keys) ->
  qsum (map (fun k => series_sum (map col (group_rows key k df))) keys)
  = series_sum (map col df).
Proof.
  intros Hnd. induction df as [|r df IH]; intros Hcov.
  - simpl. clear. induction keys as [|k keys IHk]; simpl; [reflexivity|].
    fold (qsum (map (fun _ : K => 0%Qc) keys)). rewrite IHk. ring.
  - specialize (IH (fun r' Hr' => Hcov r' (or_intror Hr'))).
    pose proof (Hcov r (or_introl eq_refl)) as Hr.
    destruct (col r) as [v|] eqn:Hv.
    + transitivity
        (qsum (map (fun k => if bool_decide (key r = k)
                             then (v + series_sum (map col (group_rows key k df)))%Qc
                             else series_sum (map col (group_rows key k df))) keys)).
      { f_equal. apply map_ext. intros k. unfold group_rows. simpl.
        destruct (bool_decide (key r = k)); simpl; [rewrite Hv|]; reflexivity. }
      rewrite (qsum_one_key r _ v keys Hnd), IH.
      rewrite bool_decide_eq_true_2 by (apply list_elem_of_In; exact Hr).
      simpl. rewrite Hv. reflexivity.
    + simpl. rewrite Hv, <- IH. f_equal. apply map_ext. intros k.
      unfold group_rows. simpl.
      destruct (bool_decide (key r = k)); simpl; [rewrite Hv|]; reflexivity.
Qed.

Lemma groupby_sum_total (df : DataFrame) :
  qsum (map snd (groupby_sum le key col df)) = series_sum (map col df).
Proof.
  unfold groupby_sum. rewrite map_map. simpl.
  apply qsum_groups.
  - apply group_keys_NoDup.
  - intros r Hr. apply group_keys_In. eauto.
Qed.

End GroupByFacts.

(* ===================================================================== *)
(** ** Time series                                                        *)
(* ===================================================================== *)

Lemma fold_min_spec (m : Z) (ms : list Z) :
  In (fold_right Z.min m ms) (m :: ms)
  /\ (forall x, In x (m :: ms) -> fold_right Z.min m ms <= x).
Proof.
  induction ms as [|a ms [IHin IHle]]; simpl.
  - split; [auto|]. intros x [<-|[]]. lia.
  - split.
    + destruct (Z.min_spec a (fold_right Z.min m ms)) as [[_ ->]|[_ ->]]; [auto|].
      destruct IHin as [E|Hin]; [left|right; right]; auto.
    + intros x [<-|[<-|Hx]].
      * specialize (IHle m (or_introl eq_refl)). lia.
      * lia.
      * specialize (IHle x (or_intror Hx)). lia.
Qed.

Lemma fold_max_spec (m : Z) (ms : list Z) :
  In (fold_right Z.max m ms) (m :: ms)
  /\ (forall x, In x (m :: ms) -> x <= fold_right Z.max m ms).
Proof.
  induction ms as [|a ms [IHin IHle]]; simpl.
  - split; [auto|]. intros x [<-|[]]. lia.
  - split.
    + destruct (Z.max_spec a (fold_right Z.max m ms)) as [[_ ->]|[_ ->]]; [|auto].
      destruct IHin as [E|Hin]; [left|right; right]; auto.
    + intros x [<-|[<-|Hx]].
      * specialize (IHle m (or_introl eq_refl)). lia.
      * lia.
      * specialize (IHle x (or_intror Hx)). lia.
Qed.

Lemma in_consecutive (lo : Z) (n : nat) (k : Z) :
  In k (map (fun i => lo + Z.of_nat i) (seq 0 n)) <-> lo <= k < lo + Z.of_nat n.
Proof.
  rewrite in_map_iff. split.
  - intros (i & <- & Hi). apply in_seq in Hi. lia.
  - intros Hk. exists (Z.to_nat (k - lo)). split; [lia|]. apply in_seq. lia.
Qed.

Lemma consecutive_sorted (lo : Z) (n start : nat) :
  StronglySorted Z.lt (map (fun i => lo + Z.of_nat i) (seq start n)).
Proof.
  revert start. induction n as [|n IH]; intros start; simpl; constructor.
  - apply IH.
  - apply List.Forall_forall. intros x Hx. apply in_map_iff in Hx.
    destruct Hx as (i & <- & Hi). apply in_seq in Hi. lia.
Qed.

(** The monthly bins run from the first month of the data to the last. *)
Lemma month_bins_In (df : DataFrame) (k : Z) :
  In k (month_bins df)
  <-> exists r1 r2, In r1 df /\ In r2 df /\ row_month r1 <= k <= row_month r2.
Proof.
  unfold month_bins. destruct df as [|r df]; simpl.
  - split; [tauto|]. intros (r1 & _ & [] & _).
  - set (m := row_month r). set (ms := map row_month df).
    destruct (fold_min_spec m ms) as [Hlo_in Hlo].
    destruct (fold_max_spec m ms) as [Hhi_in Hhi].
    assert (Hmem : forall x, In x (m :: ms) <-> exists r', In r' (r :: df) /\ row_month r' = x).
    { intros x. change (m :: ms) with (map row_month (r :: df)).
      rewrite in_map_iff. firstorder. }
    rewrite in_consecutive. split.
    + intros Hk. apply Hmem in Hlo_in as (r1 & Hr1 & E1).
      apply Hmem in Hhi_in as (r2 & Hr2 & E2).
      exists r1, r2. repeat split; auto; lia.
    + intros (r1 & r2 & Hr1 & Hr2 & Hk).
      assert (In (row_month r1) (m :: ms)) as H1 by (apply Hmem; eauto).
      assert (In (row_month r2) (m :: ms)) as H2 by (apply Hmem; eauto).
      apply Hlo in H1. apply Hhi in H2. lia.
Qed.

Lemma month_bins_sorted (df : DataFrame) : StronglySorted Z.lt (month_bins df).
Proof.
  unfold month_bins. destruct (map row_month df); [constructor|].
  apply consecutive_sorted.
Qed.

Lemma strictly_sorted_NoDup (l : list Z) : StronglySorted Z.lt l -> NoDup l.
Proof.
  induction 1 as [|a l Hs IH Hall]; constructor; [|exact IH].
  rewrite list_elem_of_In. intros Hin.
  rewrite List.Forall_forall in Hall. specialize (Hall a Hin). lia.
Qed.

Lemma time_series_months (df : DataFrame) :
  map tb_month (time_series_df df) = month_bins df.
Proof. unfold time_series_df. rewrite map_map. simpl. apply map_id. Qed.

(** C2 (as stated in the specification, refuted).  A month without any record
    does get a bucket when it lies between two months that have records:
    January and March data give a February bucket, of total 0. *)
Lemma time_series_has_empty_month :
  ~ (forall (df : DataFrame) (b : TimeBucket),
       In b (time_series_df df) -> exists r, In r df /\ row_month r = tb_month b).
Proof.
  intros H.
  destruct (H gap_df {| tb_month := 2024 * 12 + 1; tb_TOTAL := 0%Qc |})
    as (r & Hr & Hm).
  - right. left. reflexivity.
  - simpl in Hr. destruct Hr as [<-|[<-|[<-|[]]]]; discriminate Hm.
Qed.

(** C2 (amended).  The time series has one bucket for every calendar month from
    the earliest month of the data to the latest, in chronological order; a
    bucket holds the sum of TOTAL VALUE over the records of its month, which is
    0 for a month of that span without records. *)
Theorem time_series_zero_filled (df : DataFrame) :
  (forall k, In k (map tb_month (time_series_df df))
     <-> exists r1 r2, In r1 df /\ In r2 df /\ row_month r1 <= k <= row_month r2)
  /\ StronglySorted Z.lt (map tb_month (time_series_df df))
  /\ (forall b, In b (time_series_df df) ->
        tb_TOTAL b
        = series_sum (map TOTAL_VALUE (group_rows row_month (tb_month b) df)))
  /\ (forall b, In b (time_series_df df) ->
        (forall r, In r df -> row_month r <> tb_month b) -> tb_TOTAL b = 0%Qc).
Proof.
  rewrite time_series_months.
  split; [apply month_bins_In|]. split; [apply month_bins_sorted|].
  assert (Hsum : forall b, In b (time_series_df df) ->
            tb_TOTAL b
            = series_sum (map TOTAL_VALUE (group_rows row_month (tb_month b) df))).
  { intros b Hb. unfold time_series_df in Hb. apply in_map_iff in Hb.
    destruct Hb as (k & <- & _). reflexivity. }
  split; [exact Hsum|].
  intros b Hb Hnone. rewrite (Hsum b Hb).
  replace (group_rows row_month (tb_month b) df) with (@nil Row); [reflexivity|].
  symmetry. clear Hsum Hb. induction df as [|r df IH]; [reflexivity|].
  unfold group_rows. simpl.
  rewrite bool_decide_eq_false_2 by (apply Hnone; left; reflexivity).
  apply IH. intros r' Hr'. apply Hnone. right. exact Hr'.
Qed.

(** The example of the specification: two January records of 100 and 50 sum to
    150 in the January bucket, whose label is the last day of the month. *)
Example time_series_january :
  map (fun b => (tb_ARRIVAL_DATE b, this (tb_TOTAL b))) (firstn 1 (time_series_df gap_df))
  = [(at_midnight 2024 1 31, 150 # 1)].
Proof. vm_compute. reflexivity. Qed.

(* ===================================================================== *)
(** ** Grand total, with exact sums                                       *)
(* ===================================================================== *)

(** With exact addition, regrouping the records does not change the grand
    total: the exact sum of the monthly buckets, and of the per-country totals,
    is the exact Total Value.  This is a fact about the rational sums of the
    model; the float64 sums of the script agree with it only up to rounding. *)
Lemma exact_grand_total (filtered_df : DataFrame) :
  total_value filtered_df = qsum (map tb_TOTAL (time_series_df filtered_df))
  /\ total_value filtered_df = qsum (map snd (geo_df filtered_df)).
Proof.
  unfold total_value. split.
  - unfold time_series_df. rewrite map_map. simpl. symmetry.
    apply (qsum_groups row_month TOTAL_VALUE).
    + apply strictly_sorted_NoDup, month_bins_sorted.
    + intros r Hr. apply month_bins_In. exists r, r. repeat split; auto; lia.
  - unfold geo_df. symmetry. apply groupby_sum_total.
Qed.

(* ===================================================================== *)
(** ** Top-K                                                              *)
(* ===================================================================== *)

Lemma insert_by_perm {A} (before : A -> A -> bool) (a : A) (l : list A) :
  Permutation (insert_by before a l) (a :: l).
Proof.
  induction l as [|b l IH]; simpl; [reflexivity|].
  destruct (before a b); [reflexivity|]. rewrite IH. apply perm_swap.
Qed.

Lemma stable_sort_perm {A} (before : A -> A -> bool) (l : list A) :
  Permutation (stable_sort before l) l.
Proof.
  induction l as [|a l IH]; simpl; [reflexivity|].
  rewrite insert_by_perm. by constructor.
Qed.

Section TopK.
Context {A : Type} (val : A -> Qc).

#[local] Instance ge_on_trans : Transitive (ge_on val).
Proof. intros a b c Hab Hbc. unfold ge_on in *. by etrans. Qed.

#[local] Instance ge_on_total : Total (ge_on val).
Proof. intros a b. unfold ge_on. destruct (Qc_le_total (val a) (val b)); auto. Qed.

Lemma sort_desc_perm (l : list A) : Permutation (sort_desc val l) l.
Proof. apply stable_sort_perm. Qed.

Lemma sort_desc_sorted (l : list A) : StronglySorted (ge_on val) (sort_desc val l).
Proof.
  unfold sort_desc. induction l as [|a l IH]; simpl; [constructor|].
  induction IH as [|b s Hs IHs Hall]; simpl; [repeat constructor|].
  destruct (decide (ge_on val a b)) as [Hab|Hab].
  - rewrite bool_decide_eq_true_2 by exact Hab. constructor; [by constructor|].
    constructor; [exact Hab|]. eapply Forall_impl; [exact Hall|].
    intros c Hbc. by etrans.
  - rewrite bool_decide_eq_false_2 by exact Hab. constructor; [exact IHs|].
    assert (Hba : ge_on val b a) by (destruct (ge_on_total a b); [contradiction|done]).
    eapply Permutation_Forall; [symmetry; apply insert_by_perm|]. by constructor.
Qed.

Lemma StronglySorted_firstn (R : relation A) (n : nat) (l : list A) :
  StronglySorted R l -> StronglySorted R (firstn n l).
Proof.
  intros Hs. rewrite <- (firstn_skipn n l) in Hs.
  by apply StronglySorted_app_1_l in Hs.
Qed.

Lemma nlargest_spec (n : nat) (l : list A) :
  length (nlargest n val l) = Nat.min n (length l)
  /\ StronglySorted (ge_on val) (nlargest n val l)
  /\ (forall a, In a (nlargest n val l) -> In a l).
Proof.
  unfold nlargest. split; [|split].
  - rewrite length_take. f_equal. apply Permutation_length, sort_desc_perm.
  - apply StronglySorted_firstn, sort_desc_sorted.
  - intros a Ha. apply (Permutation_in a (sort_desc_perm l)).
    rewrite <- (firstn_skipn n (sort_desc val l)). apply in_or_app. left. exact Ha.
Qed.


End TopK.

Lemma group_values_keys (key : Row -> string) (df : DataFrame) :
  map vg_key (group_values key df) = group_keys String.le key df.
Proof. unfold group_values. rewrite map_map. simpl. apply map_id. Qed.

Lemma groupby_sum_keys {K} `{EqDecision K} (le : relation K) `{!RelDecision le}
      (key : Row -> K) (col : Row -> option Qc) (df : DataFrame) :
  map fst (groupby_sum le key col df) = group_keys le key df.
Proof. unfold groupby_sum. rewrite map_map. simpl. apply map_id. Qed.

Lemma top_by_value_nlargest (K : nat) (key : Row -> string) (df : DataFrame) :
  top_by_value K key df = nlargest K vg_TOTAL (group_values key df).
Proof. reflexivity. Qed.

Section RankOrder.
Context {A : Type} (val : A -> Qc) (key : A -> string).





End RankOrder.



(* ===================================================================== *)
(** ** Trend: the (month, product) table                                  *)
(* ===================================================================== *)

#[local] Instance key_le_trans : Transitive key_le.
Proof.
  intros [m1 p1] [m2 p2] [m3 p3]. unfold key_le. simpl.
  intros [H12|[-> H12]] [H23|[-> H23]]; auto; [left; lia|].
  right. split; [reflexivity|]. by etrans.
Qed.

#[local] Instance key_le_total : Total key_le.
Proof.
  intros [m1 p1] [m2 p2]. unfold key_le. simpl.
  destruct (Z.lt_trichotomy m1 m2) as [?|[->|?]]; auto.
  destruct (String.le_total p1 p2); auto.
Qed.

Lemma key_le_same_product (m1 m2 : Z) (p : string) :
  key_le (m1, p) (m2, p) -> (m1, p) <> (m2, p) -> m1 < m2.
Proof.
  unfold key_le. simpl. intros [H|[-> _]] Hne; [exact H|]. by destruct Hne.
Qed.

Lemma trend_cells_keys (df : DataFrame) :
  map ckey (trend_cells df) = group_keys key_le trend_key df.
Proof.
  unfold trend_cells, groupby_sum. rewrite !map_map. simpl.
  erewrite map_ext; [apply map_id|]. intros [m p]. reflexivity.
Qed.

Lemma trend_cells_sorted (df : DataFrame) :
  StronglySorted key_le (map ckey (trend_cells df)).
Proof.
  rewrite trend_cells_keys. unfold group_keys.
  apply StronglySorted_merge_sort; apply _.
Qed.

Lemma trend_cells_NoDup (df : DataFrame) : NoDup (map ckey (trend_cells df)).
Proof. rewrite trend_cells_keys. apply group_keys_NoDup. Qed.

Lemma trend_cells_In (df : DataFrame) (c : Cell) :
  In c (trend_cells df)
  <-> populated df (c_month c) (c_PRODUCT c)
      /\ c_TOTAL c = cell_total df (c_month c) (c_PRODUCT c).
Proof.
  unfold trend_cells, groupby_sum. rewrite map_map, in_map_iff. simpl. split.
  - intros ([m p] & <- & Hk). simpl.
    apply (group_keys_In key_le trend_key df) in Hk as (r & Hr & E).
    unfold trend_key in E. injection E as Em Ep.
    split; [exists r; auto|reflexivity].
  - intros [(r & Hr & Em & Ep) Ht]. exists (c_month c, c_PRODUCT c). split.
    + destruct c as [m p t]. simpl in *. by rewrite Ht.
    + apply (group_keys_In key_le trend_key df). exists r. split; [exact Hr|].
      unfold trend_key. by rewrite Em, Ep.
Qed.

(** In a table sorted by key without repeated keys, the cells before a cell
    have smaller keys and the cells after it larger ones. *)
Lemma sorted_cells_split (cells pre post : list Cell) (c : Cell) :
  cells = pre ++ c :: post ->
  StronglySorted key_le (map ckey cells) ->
  NoDup (map ckey cells) ->
  (forall e, In e pre -> key_le (ckey e) (ckey c) /\ ckey e <> ckey c)
  /\ (forall e, In e post -> key_le (ckey c) (ckey e) /\ ckey e <> ckey c).
Proof.
  intros -> Hs Hnd. rewrite map_app in Hs, Hnd. simpl in Hs, Hnd.
  apply NoDup_app in Hnd as (_ & Hdisj & Hnd2).
  apply NoDup_cons in Hnd2 as [Hc _].
  split; intros e He.
  - assert (ckey e ∈ map ckey pre) as Hin
        by (apply list_elem_of_In, in_map, He).
    split.
    + eapply StronglySorted_app_1_elem_of; [exact Hs|exact Hin|left].
    + intros E. apply (Hdisj _ Hin). rewrite E. left.
  - assert (ckey e ∈ map ckey post) as Hin
        by (apply list_elem_of_In, in_map, He).
    split.
    + apply StronglySorted_app_1_r in Hs.
      apply StronglySorted_cons in Hs as [Hall _].
      rewrite Forall_forall in Hall. by apply Hall.
    + intros E. apply Hc. by rewrite <- E.
Qed.

(* ===================================================================== *)
(** ** Trend: previous bucket and growth rate                             *)
(* ===================================================================== *)

Lemma same_product_iff (c d : Cell) :
  same_product c d = true <-> c_PRODUCT d = c_PRODUCT c.
Proof. unfold same_product. apply String.eqb_eq. Qed.

(** Searching the rows passed so far, latest first, finds the last one that
    satisfies the test. *)
Lemma find_last_spec (f : Cell -> bool) (pre : list Cell) :
  match List.find f (rev pre) with
  | Some d => exists pre1 pre2,
      pre = pre1 ++ d :: pre2 /\ f d = true /\ (forall e, In e pre2 -> f e = false)
  | None => forall e, In e pre -> f e = false
  end.
Proof.
  induction pre as [|x pre IH] using rev_ind; simpl.
  - intros e [].
  - rewrite rev_app_distr. simpl. destruct (f x) eqn:Hx.
    + exists pre, []. repeat split; auto. intros e [].
    + destruct (List.find f (rev pre)) as [d|].
      * destruct IH as (pre1 & pre2 & -> & Hd & Hrest).
        exists pre1, (pre2 ++ [x]). split; [by rewrite <- app_assoc|].
        split; [exact Hd|]. intros e He. apply in_app_or in He as [He|[<-|[]]]; auto.
      * intros e He. apply in_app_or in He as [He|[<-|[]]]; auto.
Qed.

Lemma with_growth_split (seen cells : list Cell) (t : TrendRow) :
  In t (with_growth seen cells) ->
  exists pre c post,
    cells = pre ++ c :: post /\ t = trend_row c (prev_in (rev pre ++ seen) c).
Proof.
  revert seen. induction cells as [|c cells IH]; intros seen; simpl; [tauto|].
  intros [<-|Ht].
  - exists [], c, cells. split; reflexivity.
  - apply IH in Ht as (pre & c' & post & -> & ->).
    exists (c :: pre), c', post. split; [reflexivity|].
    simpl. by rewrite <- app_assoc.
Qed.

Lemma with_growth_complete (seen pre post : list Cell) (c : Cell) :
  In (trend_row c (prev_in (rev pre ++ seen) c)) (with_growth seen (pre ++ c :: post)).
Proof.
  revert seen. induction pre as [|x pre IH]; intros seen; simpl.
  - left. reflexivity.
  - right. rewrite <- app_assoc. apply IH.
Qed.

(** The row of a cell: its PREV TOTAL VALUE is the total of the latest earlier
    month of the same product, with no month of that product in between; it is
    missing when the product has no earlier month. *)
Lemma with_growth_prev (cells : list Cell) (t : TrendRow) :
  StronglySorted key_le (map ckey cells) ->
  NoDup (map ckey cells) ->
  In t (with_growth [] cells) ->
  exists c, In c cells /\ t = trend_row c (tr_PREV t)
    /\ match tr_PREV t with
       | Some pv =>
           exists d, In d cells /\ c_PRODUCT d = c_PRODUCT c
             /\ c_month d < c_month c /\ c_TOTAL d = pv
             /\ (forall e, In e cells -> c_PRODUCT e = c_PRODUCT c ->
                   ~ (c_month d < c_month e < c_month c))
       | None =>
           forall e, In e cells -> c_PRODUCT e = c_PRODUCT c -> c_month c <= c_month e
       end.
Proof.
  intros Hs Hnd Ht.
  apply with_growth_split in Ht as (pre & c & post & Hcells & ->).
  rewrite app_nil_r. exists c. split; [rewrite Hcells; apply in_elt|].
  split; [reflexivity|]. simpl.
  destruct (sorted_cells_split cells pre post c Hcells Hs Hnd) as [Hpre Hpost].
  assert (Hafter : forall e, In e post -> c_PRODUCT e = c_PRODUCT c ->
                     c_month c < c_month e).
  { intros e He Ep. destruct (Hpost e He) as [Hle Hne].
    unfold ckey in *. rewrite Ep in *. apply (key_le_same_product _ _ _ Hle). congruence. }
  assert (Hbefore : forall e, In e pre -> c_PRODUCT e = c_PRODUCT c ->
                      c_month e < c_month c).
  { intros e He Ep. destruct (Hpre e He) as [Hle Hne].
    unfold ckey in *. rewrite Ep in *. by apply (key_le_same_product _ _ _ Hle). }
  unfold prev_in. pose proof (find_last_spec (same_product c) pre) as Hfind.
  destruct (List.find (same_product c) (rev pre)) as [d|]; simpl.
  - destruct Hfind as (pre1 & pre2 & Epre & Hd & Hrest).
    apply same_product_iff in Hd.
    assert (In d pre) as Hdpre by (rewrite Epre; apply in_elt).
    exists d. split; [rewrite Hcells; apply in_or_app; left; exact Hdpre|].
    split; [exact Hd|]. split; [by apply Hbefore|]. split; [reflexivity|].
    intros e He Ep [Hlo Hhi]. rewrite Hcells in He.
    apply in_app_or in He as [He|[<-|He]].
    + (* before c: before d, d itself, or between d and c *)
      rewrite Epre in He. apply in_app_or in He as [He|[<-|He]].
      * assert (Hs1 : StronglySorted key_le (map ckey pre)).
        { rewrite Hcells, map_app in Hs. by apply StronglySorted_app_1_l in Hs. }
        assert (Hn1 : NoDup (map ckey pre)).
        { rewrite Hcells, map_app in Hnd. by apply NoDup_app in Hnd as (? & _). }
        destruct (sorted_cells_split pre pre1 pre2 d Epre Hs1 Hn1) as [Hpre1 _].
        destruct (Hpre1 e He) as [Hle Hne]. unfold ckey in *.
        rewrite Ep, <- Hd in Hle, Hne.
        pose proof (key_le_same_product _ _ _ Hle Hne). lia.
      * lia.
      * specialize (Hrest e He). apply same_product_iff in Ep. congruence.
    + lia.
    + specialize (Hafter e He Ep). lia.
  - intros e He Ep. rewrite Hcells in He.
    apply in_app_or in He as [He|[<-|He]].
    + specialize (Hfind e He). apply same_product_iff in Ep. congruence.
    + lia.
    + specialize (Hafter e He Ep). lia.
Qed.

Lemma growth_rate_finite (total pv : Qc) :
  pv <> 0%Qc ->
  growth_rate total (Some pv) = Fin ((total - pv) / pv * Qc_of_Z 100)%Qc.
Proof.
  intros Hpv. unfold growth_rate, fsub, fdiv, fmul, fadd, fneg, of_cell.
  rewrite bool_decide_eq_false_2 by exact Hpv. reflexivity.
Qed.

Lemma trend_df_In (df : DataFrame) (t : TrendRow) :
  In t (trend_df df)
  <-> In t (with_growth [] (trend_cells df)) /\ trend_notna t = true.
Proof. unfold trend_df, dropna. apply filter_In. Qed.

Lemma populated_cell (df : DataFrame) (m : Z) (p : string) :
  populated df m p ->
  In {| c_month := m; c_PRODUCT := p; c_TOTAL := cell_total df m p |} (trend_cells df).
Proof. intros Hp. apply trend_cells_In. simpl. auto. Qed.

(** C3.  Every row of the trend table belongs to a (month, product) pair that
    has records; its previous value is the total of the same product in the
    latest earlier month in which the product has records (months without
    records of the product are skipped), and its growth rate is
    (current - previous) / previous * 100.  A product's first month has no
    row.  Conversely a month of a product that has an earlier month, of
    non-zero total, has its row.  Totals of 100 in January and 150 in February
    give exactly one row, for February, with growth rate 50; a single month
    gives none. *)
Theorem trend_previous_populated_bucket (df : DataFrame) :
  (forall t, In t (trend_df df) ->
     populated df (tr_month t) (tr_PRODUCT t)
     /\ tr_TOTAL t = cell_total df (tr_month t) (tr_PRODUCT t)
     /\ exists m', m' < tr_month t
          /\ populated df m' (tr_PRODUCT t)
          /\ (forall m'', m' < m'' < tr_month t -> ~ populated df m'' (tr_PRODUCT t))
          /\ tr_PREV t = Some (cell_total df m' (tr_PRODUCT t))
          /\ tr_GROWTH t = growth_rate (tr_TOTAL t) (tr_PREV t)
          /\ (cell_total df m' (tr_PRODUCT t) <> 0%Qc ->
              tr_GROWTH t
              = Fin ((tr_TOTAL t - cell_total df m' (tr_PRODUCT t))
                     / cell_total df m' (tr_PRODUCT t) * Qc_of_Z 100)%Qc))
  /\ (forall m p, (forall m', m' < m -> ~ populated df m' p) ->
        forall t, In t (trend_df df) -> tr_PRODUCT t = p -> tr_month t <> m)
  /\ (forall m m' p,
        populated df m p -> populated df m' p -> m' < m ->
        (forall m'', m' < m'' < m -> ~ populated df m'' p) ->
        cell_total df m' p <> 0%Qc ->
        In {| tr_month := m; tr_PRODUCT := p; tr_TOTAL := cell_total df m p;
              tr_PREV := Some (cell_total df m' p);
              tr_GROWTH := Fin ((cell_total df m p - cell_total df m' p)
                                / cell_total df m' p * Qc_of_Z 100)%Qc |}
           (trend_df df))
  /\ map show_trend (trend_df jan_feb_df) = [(2024 * 12 + 1, "P", Some (50 # 1))]
  /\ trend_df (firstn 1 jan_feb_df) = [].
Proof.
  assert (Hrows : forall t, In t (trend_df df) ->
     populated df (tr_month t) (tr_PRODUCT t)
     /\ tr_TOTAL t = cell_total df (tr_month t) (tr_PRODUCT t)
     /\ exists m', m' < tr_month t
          /\ populated df m' (tr_PRODUCT t)
          /\ (forall m'', m' < m'' < tr_month t -> ~ populated df m'' (tr_PRODUCT t))
          /\ tr_PREV t = Some (cell_total df m' (tr_PRODUCT t))
          /\ tr_GROWTH t = growth_rate (tr_TOTAL t) (tr_PREV t)
          /\ (cell_total df m' (tr_PRODUCT t) <> 0%Qc ->
              tr_GROWTH t
              = Fin ((tr_TOTAL t - cell_total df m' (tr_PRODUCT t))
                     / cell_total df m' (tr_PRODUCT t) * Qc_of_Z 100)%Qc)).
  { intros t Ht. apply trend_df_In in Ht as [Ht Hna].
    destruct (with_growth_prev _ t (trend_cells_sorted df) (trend_cells_NoDup df) Ht)
      as (c & Hc & Et & Hprev).
    unfold trend_notna in Hna. destruct (tr_PREV t) as [pv|] eqn:Epv; [|discriminate].
    destruct Hprev as (d & Hd & Hdp & Hlt & Hdt & Hbetween).
    apply trend_cells_In in Hc as [Hcpop Hctot].
    apply trend_cells_In in Hd as [Hdpop Hdtot].
    rewrite Et. simpl. split; [exact Hcpop|]. split; [exact Hctot|].
    exists (c_month d). rewrite <- Hdp. split; [exact Hlt|]. split; [exact Hdpop|].
    split.
    - intros m'' Hm'' Hpop. rewrite Hdp in Hpop.
      apply (Hbetween _ (populated_cell df m'' _ Hpop)); simpl; auto.
    - rewrite <- Hdtot, Hdt. split; [reflexivity|]. split; [reflexivity|].
      apply growth_rate_finite. }
  split; [exact Hrows|]. split; [|split; [|split]].
  - intros m p Hfirst t Ht Ep Em.
    destruct (Hrows t Ht) as (_ & _ & m' & Hlt & Hpop & _).
    apply (Hfirst m'); [lia|]. by rewrite <- Ep.
  - intros m m' p Hpop Hpop' Hlt Hnone Hnz.
    set (c := {| c_month := m; c_PRODUCT := p; c_TOTAL := cell_total df m p |}).
    pose proof (populated_cell df m p Hpop) as Hc. fold c in Hc.
    destruct (in_split _ _ Hc) as (pre & post & Hcells).
    pose proof (with_growth_complete [] pre post c) as Hin.
    rewrite <- Hcells in Hin.
    destruct (with_growth_prev _ _ (trend_cells_sorted df) (trend_cells_NoDup df) Hin)
      as (c0 & Hc0 & Et & Hprev).
    assert (c0 = c) as ->.
    { destruct c0 as [m0 p0 t0]. unfold trend_row in Et. simpl in Et.
      injection Et as E1 E2 E3. unfold c. congruence. }
    simpl in Hprev.
    assert (Hpv : prev_in (rev pre ++ []) c = Some (cell_total df m' p)).
    { destruct (prev_in (rev pre ++ []) c) as [pv|].
      - destruct Hprev as (d & Hd & Hdp & Hdlt & Hdt & Hbetween).
        assert (c_month d = m') as Em.
        { destruct (Z.lt_trichotomy (c_month d) m') as [Hlo|[E|Hhi]]; [|exact E|].
          - exfalso. apply (Hbetween _ (populated_cell df m' p Hpop')); simpl; auto.
          - exfalso. apply trend_cells_In in Hd as [Hdpop _]. rewrite Hdp in Hdpop.
            apply (Hnone (c_month d)); simpl in *; auto. }
        apply trend_cells_In in Hd as [_ Hdtot].
        rewrite <- Hdt, Hdtot, Hdp, Em. reflexivity.
      - exfalso. specialize (Hprev _ (populated_cell df m' p Hpop') eq_refl).
        simpl in Hprev. lia. }
    rewrite Hpv in Hin. apply trend_df_In. unfold trend_row in Hin. simpl in Hin.
    rewrite (growth_rate_finite _ _ Hnz) in Hin. split; [exact Hin|reflexivity].
  - vm_compute. reflexivity.
  - vm_compute. reflexivity.
Qed.

(* ===================================================================== *)
(** ** Trend: a previous total of zero                                    *)
(* ===================================================================== *)

Lemma growth_rate_zero_prev (total : Qc) :
  growth_rate total (Some 0%Qc)
  = if bool_decide (total = 0%Qc) then NaN
    else if bool_decide (0 < total)%Qc then PInf else NInf.
Proof.
  unfold growth_rate, fsub, fadd, fneg, of_cell, fdiv.
  replace (total + - 0)%Qc with total by ring.
  rewrite (bool_decide_eq_true_2 (0%Qc = 0%Qc)) by reflexivity.
  destruct (bool_decide (total = 0%Qc)); [reflexivity|].
  unfold inf_like. destruct (bool_decide (0 < total)%Qc); reflexivity.
Qed.

Lemma fadd_is_fin (a b : float) : is_fin (fadd a b) = is_fin a && is_fin b.
Proof. destruct a, b; reflexivity. Qed.

Lemma fsum_is_fin (vals : list float) :
  is_fin (fold_right fadd (Fin 0%Qc) vals) = forallb is_fin vals.
Proof.
  induction vals as [|x vals IH]; simpl; [reflexivity|].
  by rewrite fadd_is_fin, IH.
Qed.

Lemma fdiv_is_fin (a : float) (n : Qc) : is_fin (fdiv a (Fin n)) = true -> is_fin a = true.
Proof.
  destruct a; simpl; try reflexivity.
  - destruct (bool_decide (0 <= n)%Qc); discriminate.
  - destruct (bool_decide (0 <= n)%Qc); discriminate.
  - discriminate.
Qed.

(** A mean over values that include an infinity is not a finite number. *)
Lemma series_mean_not_finite (s : list float) (x : float) :
  In x s -> x = PInf \/ x = NInf -> is_fin (series_mean s) = false.
Proof.
  intros Hin Hx. unfold series_mean.
  destruct (is_fin (fdiv _ _)) eqn:E; [|reflexivity].
  apply fdiv_is_fin in E. rewrite fsum_is_fin in E.
  rewrite forallb_forall in E. specialize (E x).
  assert (is_fin x = true) as Hfin.
  { apply E. apply filter_In. split; [exact Hin|]. by destruct Hx as [->| ->]. }
  by destruct Hx as [->| ->].
Qed.

(** C4 (as stated in the specification, refuted).  A product with a total of 0
    in January and 150 in April: the April row has a previous total of 0, it
    stays in the trend table with an infinite growth rate, and that infinity is
    the product's mean in the top-5 ranking. *)
Lemma zero_previous_reaches_ranking :
  map (fun t => (tr_PRODUCT t, tr_PREV t, tr_GROWTH t)) (trend_df zero_df)
  = [("Z", Some 0%Qc, PInf)]
  /\ top_growth_products (trend_df zero_df) = [("Z", PInf)].
Proof. split; vm_compute; reflexivity. Qed.

(** C4 (amended).  A previous total of exactly 0 raises no fault: the growth
    rate is then NaN when the current total is 0 too, and the row is dropped by
    [dropna] before the means are taken; otherwise it is plus or minus
    infinity, by the sign of the current total, the row is kept, and the mean
    growth of its product is not a finite number. *)
Theorem zero_previous_policy (df : DataFrame) :
  (forall total,
     growth_rate total (Some 0%Qc)
     = if bool_decide (total = 0%Qc) then NaN
       else if bool_decide (0 < total)%Qc then PInf else NInf)
  /\ (forall t, In t (with_growth [] (trend_cells df)) -> tr_PREV t = Some 0%Qc ->
        (tr_TOTAL t = 0%Qc -> tr_GROWTH t = NaN /\ ~ In t (trend_df df))
        /\ (tr_TOTAL t <> 0%Qc ->
            (tr_GROWTH t = PInf \/ tr_GROWTH t = NInf) /\ In t (trend_df df)))
  /\ (forall t, In t (trend_df df) ->
        tr_GROWTH t = PInf \/ tr_GROWTH t = NInf ->
        forall g, In (tr_PRODUCT t, g) (mean_growth (trend_df df)) ->
        forall q, g <> Fin q).
Proof.
  split; [apply growth_rate_zero_prev|]. split.
  - intros t Ht Hprev.
    assert (Hg : tr_GROWTH t = growth_rate (tr_TOTAL t) (Some 0%Qc)).
    { apply with_growth_split in Ht as (pre & c & post & _ & ->).
      simpl in *. by rewrite Hprev. }
    rewrite growth_rate_zero_prev in Hg. split.
    + intros Hz. rewrite bool_decide_eq_true_2 in Hg by exact Hz.
      split; [exact Hg|]. intros Hin. apply trend_df_In in Hin as [_ Hna].
      unfold trend_notna in Hna. rewrite Hprev, Hg in Hna. discriminate.
    + intros Hnz. rewrite bool_decide_eq_false_2 in Hg by exact Hnz.
      assert (tr_GROWTH t = PInf \/ tr_GROWTH t = NInf) as Hinf.
      { destruct (bool_decide (0 < tr_TOTAL t)%Qc); auto. }
      split; [exact Hinf|]. apply trend_df_In. split; [exact Ht|].
      unfold trend_notna. rewrite Hprev. by destruct Hinf as [->| ->].
  - intros t Ht Hinf g Hg q ->. unfold mean_growth in Hg.
    apply in_map_iff in Hg as (p & E & _). injection E as -> Hmean.
    assert (is_fin (Fin q) = false) as Hfin; [|discriminate Hfin].
    rewrite <- Hmean. apply (series_mean_not_finite _ (tr_GROWTH t)); [|exact Hinf].
    apply in_map. apply filter_In. split; [exact Ht|]. apply String.eqb_refl.
Qed.

(* ===================================================================== *)
(** ** The theorems on the sample frames                                  *)
(* ===================================================================== *)

Lemma date_filter_inclusive_monotone_witness :
  (length (date_filter (Date 2024 1 10) (Date 2024 2 29) gap_csv)
   <= length (date_filter (Date 2024 1 1) (Date 2024 12 31) gap_csv))%nat.
Proof.
  destruct (date_filter_inclusive_monotone gap_csv (Date 2024 1 1) (Date 2024 12 31))
    as (_ & _ & Hmono).
  apply Hmono; reflexivity.
Defined.

Lemma empty_selection_passes_all_witness :
  importer_filter [] gap_csv = gap_csv.
Proof.
  destruct (empty_selection_passes_all gap_csv
              (all_spec (Date 2024 1 1) (Date 2024 12 31) []))
    as [Hskip _]; [reflexivity|].
  exact Hskip.
Defined.

Lemma total_value_always_defined_witness :
  exists v, TOTAL_VALUE (set_TOTAL_VALUE (Some (row_total blank_row)) blank_row) = Some v
    /\ v = 0%Qc.
Proof.
  destruct (total_value_always_defined [blank_row]) as (Hrow & _ & _).
  destruct (Hrow (set_TOTAL_VALUE (Some (row_total blank_row)) blank_row))
    as (v & Hv & Hcase).
  - left. reflexivity.
  - exists v. split; [exact Hv|exact Hcase].
Defined.


Lemma time_series_zero_filled_witness :
  tb_TOTAL {| tb_month := 2024 * 12 + 1; tb_TOTAL := 0%Qc |} = 0%Qc.
Proof.
  destruct (time_series_zero_filled gap_df) as (_ & _ & _ & Hzero).
  apply Hzero.
  - right. left. reflexivity.
  - intros r Hr. simpl in Hr. destruct Hr as [<-|[<-|[<-|[]]]]; discriminate.
Defined.

Lemma render_preserves_source_witness :
  exists s f st',
    render "JVS" (all_spec (Date 2024 1 1) (Date 2024 12 31) []) first_run
    = inr ((s, f), st')
    /\ heap st' !! s = Some gap_csv
    /\ cache st' !! "JVS" = Some gap_csv
    /\ s <> f.
Proof.
  destruct (render "JVS" (all_spec (Date 2024 1 1) (Date 2024 12 31) []) first_run)
    as [e|[[s f] st']] eqn:Hrun.
  - exfalso. vm_compute in Hrun. discriminate Hrun.
  - exists s, f, st'. split; [reflexivity|].
    destruct (render_preserves_source
                "JVS" (all_spec (Date 2024 1 1) (Date 2024 12 31) [])
                first_run st' gap_csv s f)
      as (Hs & Hc & Hne & _); [reflexivity|exact Hrun|auto].
Defined.

Lemma trend_previous_populated_bucket_witness :
  In {| tr_month := 2024 * 12 + 1; tr_PRODUCT := "P";
        tr_TOTAL := cell_total jan_feb_df (2024 * 12 + 1) "P";
        tr_PREV := Some (cell_total jan_feb_df (2024 * 12) "P");
        tr_GROWTH := Fin ((cell_total jan_feb_df (2024 * 12 + 1) "P"
                           - cell_total jan_feb_df (2024 * 12) "P")
                          / cell_total jan_feb_df (2024 * 12) "P" * Qc_of_Z 100)%Qc |}
     (trend_df jan_feb_df).
Proof.
  destruct (trend_previous_populated_bucket jan_feb_df) as (_ & _ & Hrow & _).
  apply Hrow.
  - eexists. split; [left; reflexivity|]. split; reflexivity.
  - eexists. split; [right; left; reflexivity|]. split; reflexivity.
  - lia.
  - intros m'' Hm''. lia.
  - vm_compute. discriminate.
Defined.

Lemma zero_previous_policy_witness :
  In (trend_row {| c_month := 2024 * 12 + 3; c_PRODUCT := "Z";
                   c_TOTAL := cell_total zero_df (2024 * 12 + 3) "Z" |}
                (Some 0%Qc))
     (trend_df zero_df).
Proof.
  destruct (zero_previous_policy zero_df) as (_ & Hrow & _).
  destruct (Hrow (trend_row {| c_month := 2024 * 12 + 3; c_PRODUCT := "Z";
                               c_TOTAL := cell_total zero_df (2024 * 12 + 3) "Z" |}
                            (Some 0%Qc)))
    as (_ & Hkept).
  - vm_compute. right. left. reflexivity.
  - reflexivity.
  - apply Hkept. vm_compute. discriminate.
Defined.

(* ===================================================================== *)
(** ** The filter engine as one predicate                                 *)
(* ===================================================================== *)

Lemma filter_filter_and {A} (f g : A -> bool) (l : list A) :
  List.filter g (List.filter f l) = List.filter (fun x => f x && g x) l.
Proof.
  induction l as [|x l IH]; simpl; [reflexivity|].
  destruct (f x); simpl; [destruct (g x)|]; by rewrite IH.
Qed.

Lemma filter_true {A} (f : A -> bool) (l : list A) :
  (forall x, In x l -> f x = true) -> List.filter f l = l.
Proof.
  induction l as [|x l IH]; intros H; simpl; [reflexivity|].
  rewrite (H x (or_introl eq_refl)). f_equal. apply IH. intros y Hy. apply H. by right.
Qed.

Lemma isin_In (values : list string) (x : string) :
  isin values x = true <-> In x values.
Proof.
  unfold isin. rewrite existsb_exists. split.
  - intros (y & Hy & E). apply String.eqb_eq in E. by subst.
  - intros H. exists x. split; [exact H|apply String.eqb_refl].
Qed.

Lemma importer_filter_filter (sel : list string) (df : DataFrame) :
  importer_filter sel df
  = List.filter (fun r => negb (truthy sel) || isin sel (IMPORTER_NAME r)) df.
Proof.
  unfold importer_filter. destruct (truthy sel); simpl; [reflexivity|].
  symmetry. by apply filter_true.
Qed.

Lemma country_filter_filter (col : Row -> string) (choice : string) (df : DataFrame) :
  country_filter col choice df
  = List.filter (fun r => String.eqb choice "All" || String.eqb (col r) choice) df.
Proof.
  unfold country_filter. destruct (String.eqb choice "All"); simpl; [|reflexivity].
  symmetry. by apply filter_true.
Qed.

Lemma apply_filters_passes (spec : FilterSpec) (df : DataFrame) :
  apply_filters spec df = List.filter (passes spec) df.
Proof.
  unfold apply_filters, date_filter.
  rewrite !country_filter_filter, importer_filter_filter, !filter_filter_and.
  apply filter_ext. intros r. unfold passes. by rewrite !andb_assoc.
Qed.

Lemma filter_sublist {A} (f : A -> bool) (l : list A) : sublist (List.filter f l) l.
Proof.
  induction l as [|x l IH]; simpl; [constructor|].
  destruct (f x); by constructor.
Qed.

(** X1.  The filter engine is the conjunction of its four predicates: a record
    is in the filtered relation exactly when it is in the source, its date is
    in the range, its importer is selected (or no importer is selected), and
    each country equals the chosen one (or the choice is 'All'). *)
Theorem apply_filters_conjunction (spec : FilterSpec) (df : DataFrame) (r : Row) :
  In r (apply_filters spec df)
  <-> In r df
      /\ (date_le (start_date spec) (ts_date (ARRIVAL_DATE r)) = true
          /\ date_le (ts_date (ARRIVAL_DATE r)) (end_date spec) = true)
      /\ (selected_importers spec = [] \/ In (IMPORTER_NAME r) (selected_importers spec))
      /\ (selected_importer_country spec = "All"
          \/ IMPORTER_COUNTRY r = selected_importer_country spec)
      /\ (selected_exporter_country spec = "All"
          \/ COUNTRY_OF_ORIGIN r = selected_exporter_country spec).
Proof.
  rewrite apply_filters_passes, filter_In. unfold passes, in_range, dt_date.
  rewrite !andb_true_iff, !orb_true_iff, isin_In, !String.eqb_eq.
  assert (negb (truthy (selected_importers spec)) = true <-> selected_importers spec = []) as ->.
  { destruct (selected_importers spec); simpl; split; congruence. }
  tauto.
Qed.

(** X2.  Filtering keeps the rows in their order and drops the others, so it
    never adds a shipment; and filtering a filtered relation again with the
    same selections changes nothing. *)
Theorem apply_filters_sublist_idempotent (spec : FilterSpec) (df : DataFrame) :
  sublist (apply_filters spec df) df
  /\ (num_shipments (apply_filters spec df) <= num_shipments df)%nat
  /\ apply_filters spec (apply_filters spec df) = apply_filters spec df.
Proof.
  rewrite !apply_filters_passes.
  split; [apply filter_sublist|]. split; [apply sublist_length, filter_sublist|].
  rewrite filter_filter_and. apply filter_ext. intros r. by destruct (passes spec r).
Qed.

(* ===================================================================== *)
(** ** The page as it opens                                               *)
(* ===================================================================== *)

Lemma date_le_refl (d : date) : date_le d d = true.
Proof.
  unfold date_le. rewrite !Z.eqb_refl, Z.leb_refl. simpl.
  by rewrite !orb_true_r.
Qed.

Lemma date_le_total (a b : date) : date_le a b = true \/ date_le b a = true.
Proof.
  unfold date_le. destruct a as [ya ma da], b as [yb mb db]; simpl.
  rewrite !orb_true_iff, !andb_true_iff, !orb_true_iff, !andb_true_iff.
  rewrite !Z.ltb_lt, !Z.eqb_eq, !Z.leb_le. lia.
Qed.

Lemma date_eqb_eq (a b : date) : date_eqb a b = true -> a = b.
Proof.
  unfold date_eqb. destruct a, b; simpl.
  rewrite !andb_true_iff, !Z.eqb_eq. intros [[-> ->] ->]. reflexivity.
Qed.

(** The date of the smaller timestamp is the smaller date. *)
Lemma timestamp_le_date (a b : Timestamp) :
  if timestamp_le a b
  then date_le (ts_date a) (ts_date b) = true
  else date_le (ts_date b) (ts_date a) = true.
Proof.
  unfold timestamp_le. destruct (date_eqb (ts_date a) (ts_date b)) eqn:E.
  - apply date_eqb_eq in E. rewrite E. destruct (_ <=? _); apply date_le_refl.
  - destruct (date_le (ts_date a) (ts_date b)) eqn:Hle; [reflexivity|].
    destruct (date_le_total (ts_date a) (ts_date b)); congruence.
Qed.

Lemma fold_ts_min_le (t : Timestamp) (ts : list Timestamp) (x : Timestamp) :
  In x (t :: ts) -> date_le (ts_date (fold_right ts_min t ts)) (ts_date x) = true.
Proof.
  induction ts as [|a ts IH]; simpl.
  - intros [<-|[]]. apply date_le_refl.
  - intros Hx. unfold ts_min at 1.
    pose proof (timestamp_le_date a (fold_right ts_min t ts)) as Hcmp.
    destruct (timestamp_le a (fold_right ts_min t ts)).
    + destruct Hx as [<-|[<-|Hx]].
      * eapply date_le_trans; [exact Hcmp|]. apply IH. by left.
      * apply date_le_refl.
      * eapply date_le_trans; [exact Hcmp|]. apply IH. by right.
    + destruct Hx as [<-|[<-|Hx]].
      * apply IH. by left.
      * exact Hcmp.
      * apply IH. by right.
Qed.

Lemma fold_ts_max_ge (t : Timestamp) (ts : list Timestamp) (x : Timestamp) :
  In x (t :: ts) -> date_le (ts_date x) (ts_date (fold_right ts_max t ts)) = true.
Proof.
  induction ts as [|a ts IH]; simpl.
  - intros [<-|[]]. apply date_le_refl.
  - intros Hx. unfold ts_max at 1.
    pose proof (timestamp_le_date a (fold_right ts_max t ts)) as Hcmp.
    destruct (timestamp_le a (fold_right ts_max t ts)).
    + destruct Hx as [<-|[<-|Hx]].
      * apply IH. by left.
      * exact Hcmp.
      * apply IH. by right.
    + destruct Hx as [<-|[<-|Hx]].
      * eapply date_le_trans; [apply IH; by left|exact Hcmp].
      * apply date_le_refl.
      * eapply date_le_trans; [apply IH; by right|exact Hcmp].
Qed.

Lemma date_filter_bounds (df : DataFrame) (lo hi : date) :
  min_date df = Some lo -> max_date df = Some hi -> date_filter lo hi df = df.
Proof.
  intros Hlo Hhi. unfold date_filter. apply filter_true. intros r Hr.
  unfold min_date in Hlo. unfold max_date in Hhi.
  assert (In (ARRIVAL_DATE r) (map ARRIVAL_DATE df)) as Hin by by apply in_map.
  destruct (map ARRIVAL_DATE df) as [|t ts]; [destruct Hin|].
  injection Hlo as <-. injection Hhi as <-. unfold in_range, dt_date.
  rewrite (fold_ts_min_le t ts _ Hin), (fold_ts_max_ge t ts _ Hin). reflexivity.
Qed.

(** X3.  The bounds of the date inputs enclose the data: with the range set to
    [min_date, max_date], its initial value, the date filter keeps every
    record.  A frame has bounds unless it is empty. *)
Theorem full_range_keeps_all (shipping_df : DataFrame) :
  (forall lo hi,
     min_date shipping_df = Some lo -> max_date shipping_df = Some hi ->
     date_filter lo hi shipping_df = shipping_df)
  /\ (min_date shipping_df = None <-> shipping_df = [])
  /\ (max_date shipping_df = None <-> shipping_df = []).
Proof.
  split; [|split].
  - intros lo hi. apply date_filter_bounds.
  - unfold min_date. destruct shipping_df; simpl; split; congruence.
  - unfold max_date. destruct shipping_df; simpl; split; congruence.
Qed.

Lemma unique_In (l : list string) (x : string) : In x (unique l) <-> In x l.
Proof.
  induction l as [|a l IH]; simpl; [tauto|].
  rewrite filter_In, IH, negb_true_iff, String.eqb_neq.
  destruct (decide (a = x)) as [->|Hne]; [tauto|]. split.
  - intros [?|[? _]]; auto.
  - intros [?|?]; [tauto|]. right. split; [done|congruence].
Qed.

Lemma unique_NoDup (l : list string) : NoDup (unique l).
Proof.
  induction l as [|a l IH]; simpl; constructor.
  - rewrite list_elem_of_In, filter_In, negb_true_iff, String.eqb_neq. tauto.
  - eapply sublist_NoDup; [exact IH|apply filter_sublist].
Qed.

Lemma filter_length_lt {A} (f : A -> bool) (l : list A) (x : A) :
  In x l -> f x = false -> (length (List.filter f l) < length l)%nat.
Proof.
  induction l as [|a l IH]; simpl; [tauto|]. intros [->|Hx] Hf.
  - rewrite Hf. pose proof (sublist_length _ _ (filter_sublist f l)). lia.
  - specialize (IH Hx Hf). destruct (f a); simpl; lia.
Qed.

Lemma importers_In (df : DataFrame) (x : string) :
  In x (importers df) <-> exists r, In r df /\ IMPORTER_NAME r = x.
Proof.
  unfold importers. rewrite unique_In, in_map_iff.
  split; intros (r & H1 & H2); exists r; auto.
Qed.

(** X4.  When the page opens, the importer selection is the first five
    distinct importers of the data, in order of first appearance, and the
    filtered relation is the records of these importers: all the data when it
    names at most five importers, strictly less when it names more.  An empty
    frame has no initial selection. *)
Theorem initial_view (shipping_df : DataFrame) :
  (forall spec, initial_spec shipping_df = Some spec ->
     selected_importers spec = firstn 5 (importers shipping_df)
     /\ apply_filters spec shipping_df
        = List.filter (fun r => isin (firstn 5 (importers shipping_df)) (IMPORTER_NAME r))
                      shipping_df
     /\ ((length (importers shipping_df) <= 5)%nat ->
         apply_filters spec shipping_df = shipping_df)
     /\ ((5 < length (importers shipping_df))%nat ->
         (length (apply_filters spec shipping_df) < length shipping_df)%nat))
  /\ (initial_spec shipping_df = None <-> shipping_df = []).
Proof.
  split.
  - intros spec Hspec. unfold initial_spec in Hspec.
    destruct (min_date shipping_df) as [lo|] eqn:Hlo; [|discriminate].
    destruct (max_date shipping_df) as [hi|] eqn:Hhi; [|discriminate].
    injection Hspec as <-. rewrite (date_filter_bounds _ _ _ Hlo Hhi).
    unfold default_importers.
    assert (Hfilt : apply_filters
              {| start_date := lo; end_date := hi;
                 selected_importers := firstn 5 (importers shipping_df);
                 selected_importer_country := "All";
                 selected_exporter_country := "All" |} shipping_df
            = List.filter (fun r => isin (firstn 5 (importers shipping_df)) (IMPORTER_NAME r))
                          shipping_df).
    { unfold apply_filters. simpl. rewrite (date_filter_bounds _ _ _ Hlo Hhi).
      unfold country_filter. simpl. unfold importer_filter.
      destruct shipping_df as [|r df]; [reflexivity|]. reflexivity. }
    simpl. split; [reflexivity|]. split; [exact Hfilt|]. rewrite Hfilt. split.
    + intros Hfew. rewrite firstn_all2 by exact Hfew. apply filter_true.
      intros r Hr. apply isin_In, importers_In. eauto.
    + intros Hmany.
      pose proof (unique_NoDup (map IMPORTER_NAME shipping_df)) as Hnd.
      fold (importers shipping_df) in Hnd.
      rewrite <- (firstn_skipn 5 (importers shipping_df)) in Hnd.
      apply NoDup_app in Hnd as (_ & Hdisj & _).
      destruct (skipn 5 (importers shipping_df)) as [|x rest] eqn:Hskip.
      { apply (f_equal (@length string)) in Hskip. rewrite length_skipn in Hskip.
        simpl in Hskip. lia. }
      assert (In x (importers shipping_df)) as Hx.
      { rewrite <- (firstn_skipn 5 (importers shipping_df)), Hskip.
        apply in_or_app. right. by left. }
      apply importers_In in Hx as (r & Hr & Hname).
      apply (filter_length_lt _ _ r Hr).
      destruct (isin _ _) eqn:E; [|reflexivity].
      apply isin_In in E. rewrite Hname in E. exfalso.
      apply (Hdisj x); [by apply list_elem_of_In|left].
  - unfold initial_spec.
    destruct shipping_df as [|r df]; simpl; [tauto|]. split; [|discriminate].
    unfold min_date, max_date. simpl. discriminate.
Qed.

(* ===================================================================== *)
(** ** Month labels                                                       *)
(* ===================================================================== *)

Lemma month_index_split (y m : Z) :
  1 <= m <= 12 -> (y * 12 + (m - 1)) / 12 = y /\ (y * 12 + (m - 1)) mod 12 = m - 1.
Proof.
  intros Hm. split.
  - symmetry. apply (Z.div_unique _ 12 y (m - 1)); lia.
  - symmetry. apply (Z.mod_unique _ 12 y (m - 1)); lia.
Qed.

(** X5.  The label of a monthly bucket is the last day of the month, at
    midnight: it lies in the month of the records it stands for, on or after
    each of them, and the month is read back from the label. *)
Theorem month_end_label (t : Timestamp) :
  (forall k, month_index (month_end k) = k)
  /\ (valid_date (ts_date t) ->
      ts_date (month_end (month_index t))
      = Date (year (ts_date t)) (month (ts_date t))
             (days_in_month (year (ts_date t)) (month (ts_date t)))
      /\ ts_time (month_end (month_index t)) = 0
      /\ date_le (ts_date t) (ts_date (month_end (month_index t))) = true).
Proof.
  split.
  - intros k. unfold month_index, month_end. simpl.
    pose proof (Z.div_mod k 12). lia.
  - intros [Hm Hd]. unfold month_index, month_end. simpl.
    destruct (month_index_split (year (ts_date t)) (month (ts_date t)) Hm) as [-> ->].
    replace (month (ts_date t) - 1 + 1) with (month (ts_date t)) by lia.
    split; [reflexivity|]. split; [reflexivity|].
    unfold date_le. simpl. rewrite !Z.eqb_refl. simpl.
    replace (day (ts_date t) <=? _) with true by (symmetry; apply Z.leb_le; lia).
    by rewrite !orb_true_r.
Qed.

(* ===================================================================== *)
(** ** Rankings: what is left out is not larger                           *)
(* ===================================================================== *)

Lemma nlargest_maximal {A} (val : A -> Qc) (n : nat) (l : list A) (a b : A) :
  In a (nlargest n val l) -> In b l -> ~ In b (nlargest n val l) ->
  (val b <= val a)%Qc.
Proof.
  unfold nlargest. intros Ha Hb Hnb.
  pose proof (sort_desc_sorted val l) as Hs.
  rewrite <- (firstn_skipn n (sort_desc val l)) in Hs.
  assert (In b (sort_desc val l)) as Hb'.
  { apply (Permutation_in b (Permutation_sym (sort_desc_perm val l))). exact Hb. }
  rewrite <- (firstn_skipn n (sort_desc val l)) in Hb'.
  apply in_app_or in Hb' as [Hb'|Hb']; [contradiction|].
  apply (StronglySorted_app_1_elem_of _ _ _ a b Hs); by apply list_elem_of_In.
Qed.

(** X6.  A ranking keeps the largest groups: a group that is not shown has a
    total no larger than the total of any group that is shown.  This holds for
    the rankings by value (importers, products) and by quantity. *)
Theorem ranking_keeps_largest (K : nat) (key : Row -> string) (df unit_df : DataFrame) :
  (forall g g', In g (top_by_value K key df) -> In g' (group_values key df) ->
     ~ In g' (top_by_value K key df) -> (vg_TOTAL g' <= vg_TOTAL g)%Qc)
  /\ (forall g g', In g (top_by_quantity K unit_df) ->
        In g' (groupby_sum String.le PRODUCT_DETAILS QUANTITY unit_df) ->
        ~ In g' (top_by_quantity K unit_df) -> (snd g' <= snd g)%Qc).
Proof.
  split; intros g g'.
  - rewrite top_by_value_nlargest. apply nlargest_maximal.
  - unfold top_by_quantity. apply nlargest_maximal.
Qed.

(* ===================================================================== *)
(** ** Metrics and the charts                                             *)
(* ===================================================================== *)

Lemma remove_dups_length_le {A} `{EqDecision A} (l : list A) :
  (length (remove_dups l) <= length l)%nat.
Proof.
  apply submseteq_length, NoDup_submseteq; [apply NoDup_remove_dups|].
  intros x. by rewrite elem_of_remove_dups.
Qed.

Lemma group_values_length (key : Row -> string) (df : DataFrame) :
  length (group_values key df) = length (remove_dups (map key df)).
Proof.
  rewrite <- (group_keys_length String.le key df), <- group_values_keys.
  by rewrite length_map.
Qed.

Lemma total_value_derived (df : DataFrame) :
  total_value (derive_total_value df) = series_sum (map (fun r => Some (row_total r)) df).
Proof. unfold total_value, derive_total_value. by rewrite map_map. Qed.

(** X7.  The Number of Importers metric counts the groups of the importer
    ranking: it is at most the Number of Shipments, it is 0 only for an empty
    relation, and the Top Importers chart has that many bars, up to ten. *)
Theorem importer_count_and_ranking (filtered_df : DataFrame) :
  (num_importers filtered_df <= num_shipments filtered_df)%nat
  /\ (num_importers filtered_df = 0%nat <-> filtered_df = [])
  /\ length (top_importers filtered_df) = Nat.min 10 (num_importers filtered_df)
  /\ num_importers filtered_df = length (importers filtered_df).
Proof.
  unfold num_importers, num_shipments. split; [|split; [|split]].
  - etrans; [apply remove_dups_length_le|]. by rewrite length_map.
  - split.
    + intros H0. destruct filtered_df as [|r df]; [reflexivity|]. exfalso.
      assert (IMPORTER_NAME r ∈ remove_dups (map IMPORTER_NAME (r :: df))) as Hin
          by (apply elem_of_remove_dups; left).
      destruct (remove_dups (map IMPORTER_NAME (r :: df))); [by apply elem_of_nil in Hin|].
      discriminate H0.
    + intros ->. reflexivity.
  - unfold top_importers. rewrite top_by_value_nlargest.
    destruct (nlargest_spec vg_TOTAL 10 (group_values IMPORTER_NAME filtered_df)) as [-> _].
    by rewrite group_values_length.
  - apply Permutation_length, NoDup_Permutation.
    + apply NoDup_remove_dups.
    + apply unique_NoDup.
    + intros x. unfold importers.
      by rewrite elem_of_remove_dups, !list_elem_of_In, unique_In.
Qed.

(* ===================================================================== *)
(** ** Quantity units                                                     *)
(* ===================================================================== *)

Lemma set_QUANTITY_UNIT_same (r : Row) : set_QUANTITY_UNIT (QUANTITY_UNIT r) r = r.
Proof. by destruct r. Qed.

Lemma replace_pieces_cons (r : Row) (df : DataFrame) :
  replace_pieces (r :: df)
  = (if String.eqb (QUANTITY_UNIT r) "Pieces" then set_QUANTITY_UNIT "PCS" r else r)
    :: replace_pieces df.
Proof. reflexivity. Qed.

Lemma unit_rows_cons (u : string) (r : Row) (df : DataFrame) :
  unit_rows u (r :: df)
  = if String.eqb (QUANTITY_UNIT r) u then r :: unit_rows u df else unit_rows u df.
Proof. reflexivity. Qed.

Lemma replace_pieces_unit (df : DataFrame) (r : Row) :
  In r (replace_pieces df) -> QUANTITY_UNIT r <> "Pieces".
Proof.
  intros Hr. unfold replace_pieces in Hr. apply in_map_iff in Hr as (r0 & <- & _).
  destruct (String.eqb_spec (QUANTITY_UNIT r0) "Pieces"); [discriminate|done].
Qed.

(** X9.  After line 120 no record carries the unit 'Pieces': the records that
    did are counted under 'PCS', together with those that already were, and
    the records of every other unit are as before.  Nothing else changes: the
    relation keeps its length, and doing the replacement twice is the same as
    doing it once. *)
Theorem pieces_become_pcs (df : DataFrame) :
  (forall r, In r (replace_pieces df) -> QUANTITY_UNIT r <> "Pieces")
  /\ unit_rows "PCS" (replace_pieces df)
     = map (set_QUANTITY_UNIT "PCS")
           (List.filter (fun r => String.eqb (QUANTITY_UNIT r) "PCS"
                                  || String.eqb (QUANTITY_UNIT r) "Pieces") df)
  /\ unit_rows "Pieces" (replace_pieces df) = []
  /\ (forall u, u <> "PCS" -> u <> "Pieces" ->
        unit_rows u (replace_pieces df) = unit_rows u df)
  /\ length (replace_pieces df) = length df
  /\ replace_pieces (replace_pieces df) = replace_pieces df.
Proof.
  split; [apply replace_pieces_unit|]. split; [|split; [|split; [|split]]].
  - induction df as [|r df IH]; [reflexivity|].
    rewrite replace_pieces_cons, unit_rows_cons, IH. clear IH.
    cbn [List.filter].
    destruct (String.eqb_spec (QUANTITY_UNIT r) "Pieces") as [E|E].
    + change (QUANTITY_UNIT (set_QUANTITY_UNIT "PCS" r)) with "PCS".
      rewrite String.eqb_refl, orb_true_r. reflexivity.
    + rewrite orb_false_r.
      destruct (String.eqb_spec (QUANTITY_UNIT r) "PCS") as [E'|E']; [|reflexivity].
      cbn [map]. rewrite <- E' at 2. by rewrite set_QUANTITY_UNIT_same.
  - pose proof (replace_pieces_unit df) as Hno.
    induction (replace_pieces df) as [|r l IH]; [reflexivity|].
    rewrite unit_rows_cons.
    destruct (String.eqb_spec (QUANTITY_UNIT r) "Pieces") as [E|E].
    + exfalso. apply (Hno r); [by left|exact E].
    + apply IH. intros r' Hr'. apply Hno. by right.
  - intros u Hpcs Hpieces.
    induction df as [|r df IH]; [reflexivity|].
    rewrite replace_pieces_cons, !unit_rows_cons, IH. clear IH.
    destruct (String.eqb_spec (QUANTITY_UNIT r) "Pieces") as [E|E]; [|reflexivity].
    change (QUANTITY_UNIT (set_QUANTITY_UNIT "PCS" r)) with "PCS". rewrite E.
    destruct (String.eqb_spec "PCS" u); [congruence|].
    destruct (String.eqb_spec "Pieces" u); [congruence|reflexivity].
  - unfold replace_pieces. apply length_map.
  - pose proof (replace_pieces_unit df) as Hno.
    induction (replace_pieces df) as [|r l IH]; [reflexivity|].
    rewrite replace_pieces_cons, IH by (intros r' Hr'; apply Hno; by right).
    destruct (String.eqb_spec (QUANTITY_UNIT r) "Pieces") as [E|E]; [|reflexivity].
    exfalso. apply (Hno r); [by left|exact E].
Qed.

(* ===================================================================== *)
(** ** Drill-downs                                                        *)
(* ===================================================================== *)



Lemma unique_app (pre post : list string) :
  unique (pre ++ post)
  = unique pre ++ List.filter (fun y => negb (isin pre y)) (unique post).
Proof.
  induction pre as [|a pre IH]; simpl.
  - symmetry. by apply filter_true.
  - f_equal. rewrite IH, List.filter_app. f_equal.
    rewrite filter_filter_and. apply filter_ext. intros y.
    unfold isin. cbn [existsb].
    destruct (String.eqb y a), (existsb (String.eqb y) pre); reflexivity.
Qed.

(** X18.  A country box offers 'All' first, then the countries of the relation
    it is built from, each once, in order of first appearance: the options
    offered before a country are 'All' and the countries that occur in the
    relation before the first record of that country.  On that relation no
    option selects nothing: 'All' keeps every record, and a country keeps its
    own records, of which there is at least one. *)
Theorem country_options_select_something (col : Row -> string) (df : DataFrame) :
  first_option (country_options col df) = Some "All"
  /\ NoDup (unique (map col df))
  /\ (forall c, In c (country_options col df)
                <-> c = "All" \/ exists r, In r df /\ col r = c)
  /\ (forall pre c post, map col df = pre ++ c :: post -> ~ In c pre ->
        exists before after,
          country_options col df = "All" :: before ++ c :: after
          /\ (forall x, In x before <-> In x pre))
  /\ country_filter col "All" df = df
  /\ (forall c, In c (country_options col df) -> df <> [] ->
        country_filter col c df <> []).
Proof.
  split; [reflexivity|]. split; [apply unique_NoDup|]. split; [|split; [|split]].
  - intros c. unfold country_options. simpl. rewrite unique_In, in_map_iff.
    split; (intros [E|(r & H1 & H2)]; [left; by rewrite E|right; exists r; auto]).
  - intros pre c post Hcol Hfirst. unfold country_options.
    rewrite Hcol, unique_app. cbn [unique List.filter].
    assert (isin pre c = false) as ->.
    { destruct (isin pre c) eqn:E; [|reflexivity]. by apply isin_In in E. }
    cbn [negb]. eexists _, _. split; [reflexivity|]. intros x. apply unique_In.
  - reflexivity.
  - intros c Hc Hne. unfold country_filter.
    destruct (String.eqb_spec c "All") as [->|Hall]; [exact Hne|]. simpl.
    destruct Hc as [E|Hc]; [congruence|].
    apply unique_In, in_map_iff in Hc as (r & Hrc & Hr).
    assert (In r (List.filter (fun r0 => String.eqb (col r0) c) df)) as Hin.
    { apply filter_In. split; [exact Hr|]. by apply String.eqb_eq. }
    intros E. by rewrite E in Hin.
Qed.

(* ===================================================================== *)
(** ** Loading and the cache                                              *)
(* ===================================================================== *)

(** X11.  Loading the same company twice gives the same data: the second load
    is served from the cache, whatever has become of the file in between, and
    each load hands out an object of its own. *)
Theorem cached_load_is_stable (company : string) (later_files : gmap string DataFrame)
        (st : state) (df0 : DataFrame) :
  source st company = Some df0 ->
  exists a b st',
    load_twice company later_files st = inr ((a, b), st')
    /\ heap st' !! a = Some df0
    /\ heap st' !! b = Some df0
    /\ a <> b
    /\ cache st' !! company = Some df0.
Proof.
  intros Hsrc.
  destruct (get_shipping_data_spec company st df0 Hsrc)
    as (a & st1 & Hrun1 & Hnew1 & Hheap1 & Hc1).
  set (st2 := {| files := later_files; cache := cache st1; heap := heap st1 |}).
  assert (Hsrc2 : source st2 company = Some df0) by (unfold source; simpl; by rewrite Hc1).
  destruct (get_shipping_data_spec company st2 df0 Hsrc2)
    as (b & st3 & Hrun3 & Hnew3 & Hheap3 & Hc3).
  simpl in Hnew3, Hheap3.
  assert (a <> b) as Hne.
  { intros ->. rewrite Hheap1, lookup_insert_eq in Hnew3. discriminate. }
  exists a, b, st3. split.
  { unfold load_twice. rewrite bind_run, Hrun1. rewrite bind_run. unfold set_files.
    fold st2. rewrite bind_run, Hrun3. reflexivity. }
  rewrite Hheap3. split.
  { rewrite lookup_insert_ne by done. rewrite Hheap1. apply lookup_insert_eq. }
  split; [apply lookup_insert_eq|]. split; [exact Hne|exact Hc3].
Qed.

(** X12.  Without a cached frame and without a file for the company, the load
    raises FileNotFoundError and the render cycle stops there.  With a frame
    that has no record (a cached one, or a file of a header only) the cycle
    stops at the date bounds of line 43, before any filtering. *)
Theorem render_stops_without_data (company : string) (spec : FilterSpec) (st : state) :
  (source st company = None ->
   get_shipping_data company st = inl FileNotFoundError
   /\ render company spec st = inl FileNotFoundError)
  /\ (source st company = Some [] -> render company spec st = inl DateBoundError).
Proof.
  split; [|apply render_empty_frame].
  intros Hsrc.
  assert (Hload : get_shipping_data company st = inl FileNotFoundError).
  { unfold source in Hsrc. unfold get_shipping_data.
    destruct (cache st !! company); [discriminate|]. by rewrite Hsrc. }
  split; [exact Hload|]. unfold render. by rewrite bind_run, Hload.
Qed.

(* ===================================================================== *)
(** ** Trend table: order and size                                        *)
(* ===================================================================== *)

Lemma with_growth_keys (seen cells : list Cell) :
  map tkey (with_growth seen cells) = map ckey cells.
Proof.
  revert seen. induction cells as [|c cells IH]; intros seen; simpl; [reflexivity|].
  by rewrite IH.
Qed.

Lemma map_filter_sublist {A B} (f : A -> B) (p : A -> bool) (l : list A) :
  sublist (map f (List.filter p l)) (map f l).
Proof.
  induction l as [|x l IH]; simpl; [constructor|].
  destruct (p x); simpl; by constructor.
Qed.

Lemma StronglySorted_sublist {A} (R : relation A) (l k : list A) :
  sublist l k -> StronglySorted R k -> StronglySorted R l.
Proof.
  induction 1 as [|x l k Hsub IH|x l k Hsub IH]; intros Hs.
  - constructor.
  - apply StronglySorted_cons in Hs as [Hall Hs]. constructor; [by apply IH|].
    rewrite List.Forall_forall in *. intros y Hy. apply Hall.
    apply list_elem_of_In. eapply elem_of_sublist; [|exact Hsub]. by apply list_elem_of_In.
  - apply StronglySorted_cons in Hs as [_ Hs]. by apply IH.
Qed.

(** The first cell of a product has no previous value. *)
Lemma first_cell_has_no_prev (cells : list Cell) (p : string) :
  (exists c, In c cells /\ c_PRODUCT c = p) ->
  exists t, In t (with_growth [] cells) /\ tr_PRODUCT t = p /\ tr_PREV t = None.
Proof.
  intros (c & Hc & Hp).
  assert (Hfirst : exists pre c' post,
             cells = pre ++ c' :: post /\ c_PRODUCT c' = p
             /\ forall e, In e pre -> c_PRODUCT e <> p).
  { clear -Hc Hp. induction cells as [|a cells IH]; [destruct Hc|].
    destruct (decide (c_PRODUCT a = p)) as [E|E].
    - exists [], a, cells. split; [reflexivity|]. split; [exact E|]. intros e [].
    - destruct Hc as [->|Hc]; [contradiction|].
      destruct (IH Hc) as (pre & c' & post & -> & Hp' & Hpre).
      exists (a :: pre), c', post. split; [reflexivity|]. split; [exact Hp'|].
      intros e [<-|He]; auto. }
  destruct Hfirst as (pre & c' & post & -> & Hp' & Hpre).
  exists (trend_row c' (prev_in (rev pre ++ []) c')).
  split; [apply with_growth_complete|]. split; [exact Hp'|].
  simpl. unfold prev_in. rewrite app_nil_r.
  destruct (List.find (same_product c') (rev pre)) as [d|] eqn:Hfind; [|reflexivity].
  apply find_some in Hfind as [Hd Hsame]. apply in_rev in Hd.
  apply same_product_iff in Hsame. exfalso. apply (Hpre d Hd). congruence.
Qed.

(** X13.  The trend table is in chronological order, by month and then by
    product, with at most one row for a product in a month.  Every product
    loses its first month, so the table has at most as many rows as there are
    (month, product) pairs with records, less the number of products. *)
Theorem trend_table_order_and_size (filtered_df : DataFrame) :
  StronglySorted key_le (map tkey (trend_df filtered_df))
  /\ NoDup (map tkey (trend_df filtered_df))
  /\ (length (trend_df filtered_df)
      + length (remove_dups (map PRODUCT_DETAILS filtered_df))
      <= length (trend_cells filtered_df))%nat.
Proof.
  assert (Hsub : sublist (map tkey (trend_df filtered_df)) (map ckey (trend_cells filtered_df))).
  { rewrite <- (with_growth_keys [] (trend_cells filtered_df)).
    unfold trend_df, dropna. apply map_filter_sublist. }
  split; [|split].
  - eapply StronglySorted_sublist; [exact Hsub|apply trend_cells_sorted].
  - eapply sublist_NoDup; [apply trend_cells_NoDup|exact Hsub].
  - set (rows := with_growth [] (trend_cells filtered_df)).
    set (firsts := List.filter (fun t => negb (trend_notna t)) rows).
    assert (Hsplit : (length (trend_df filtered_df) + length firsts = length rows)%nat).
    { unfold trend_df, dropna, firsts. fold rows. clear.
      induction rows as [|t rows IH]; simpl; [reflexivity|].
      destruct (trend_notna t); simpl; lia. }
    assert (Hrows : length rows = length (trend_cells filtered_df)).
    { unfold rows. rewrite <- (length_map tkey), with_growth_keys. apply length_map. }
    assert (Hprod : (length (remove_dups (map PRODUCT_DETAILS filtered_df))
                     <= length firsts)%nat).
    { rewrite <- (length_map tr_PRODUCT firsts).
      apply submseteq_length, NoDup_submseteq; [apply NoDup_remove_dups|].
      intros p Hp. apply elem_of_remove_dups, list_elem_of_In, in_map_iff in Hp.
      destruct Hp as (r & Hrp & Hr).
      destruct (first_cell_has_no_prev (trend_cells filtered_df) p) as (t & Ht & Htp & Hprev).
      { exists {| c_month := row_month r; c_PRODUCT := p;
                  c_TOTAL := cell_total filtered_df (row_month r) p |}.
        split; [|reflexivity]. apply populated_cell. exists r. auto. }
      apply list_elem_of_In, in_map_iff. exists t. split; [exact Htp|].
      apply filter_In. split; [exact Ht|]. unfold trend_notna. by rewrite Hprev. }
    lia.
Qed.

(* ===================================================================== *)
(** ** Mean growth                                                        *)
(* ===================================================================== *)

Lemma Qc_of_nat_nonneg (n : nat) : (0 <= Qc_of_Z (Z.of_nat n))%Qc.
Proof. unfold Qcle, Qle. simpl. lia. Qed.

Lemma Qc_of_nat_nonzero (n : nat) : n <> 0%nat -> Qc_of_Z (Z.of_nat n) <> 0%Qc.
Proof.
  intros Hn E. apply (f_equal this) in E. simpl in E.
  unfold inject_Z in E. injection E as E. lia.
Qed.

(** The float sum of values none of which is NaN. *)
Lemma fsum_classify (vals : list float) :
  forallb (fun x => negb (is_nan x)) vals = true ->
  fold_right fadd (Fin 0%Qc) vals
  = if existsb is_pinf vals
    then (if existsb is_ninf vals then NaN else PInf)
    else (if existsb is_ninf vals then NInf else Fin (qsum (map fin_value vals))).
Proof.
  induction vals as [|x vals IH]; [reflexivity|].
  cbn [forallb existsb fold_right map]. rewrite andb_true_iff. intros [Hx Hrest].
  rewrite (IH Hrest). clear IH.
  destruct x as [q| | |]; [| | |discriminate Hx]; cbn [is_pinf is_ninf orb];
    destruct (existsb is_pinf vals), (existsb is_ninf vals); reflexivity.
Qed.

Lemma filter_notnan_all (s : list float) :
  forallb (fun x => negb (is_nan x)) (List.filter (fun x => negb (is_nan x)) s) = true.
Proof.
  apply forallb_forall. intros x Hx. by apply filter_In in Hx as [_ Hx].
Qed.

Lemma existsb_filter_notnan (f : float -> bool) (s : list float) :
  f NaN = false ->
  existsb f (List.filter (fun x => negb (is_nan x)) s) = existsb f s.
Proof.
  intros Hf. induction s as [|x s IH]; [reflexivity|]. simpl.
  destruct x; simpl; rewrite ?IH, ?Hf; reflexivity.
Qed.

Lemma filter_split_perm {A} (f : A -> bool) (l : list A) :
  Permutation (List.filter (fun a => negb (f a)) l ++ List.filter f l) l.
Proof.
  induction l as [|a l IH]; simpl; [reflexivity|].
  destruct (f a); simpl.
  - rewrite <- Permutation_middle. by constructor.
  - by constructor.
Qed.

Lemma series_nlargest_perm {A} (val : A -> float) (l : list A) :
  Permutation
    (stable_sort (fun a b => float_leb (val b) (val a))
                 (List.filter (fun a => negb (is_nan (val a))) l)
     ++ List.filter (fun a => is_nan (val a)) l) l.
Proof. rewrite stable_sort_perm. apply filter_split_perm. Qed.

Lemma series_nlargest_In {A} (n : nat) (val : A -> float) (l : list A) (a : A) :
  In a (series_nlargest n val l) -> In a l.
Proof.
  unfold series_nlargest. intros Ha.
  apply (Permutation_in a (series_nlargest_perm val l)).
  rewrite <- (firstn_skipn n (_ ++ _)). apply in_or_app. by left.
Qed.

(** A NaN entry is returned only when there is room left after the others. *)
Lemma series_nlargest_nan {A} (n : nat) (val : A -> float) (l : list A) (a : A) :
  In a (series_nlargest n val l) -> is_nan (val a) = true ->
  (length (List.filter (fun a => negb (is_nan (val a))) l) < n)%nat.
Proof.
  unfold series_nlargest. intros Ha Hnan.
  set (ranked := stable_sort _ _) in *.
  assert (Hlen : length ranked = length (List.filter (fun a => negb (is_nan (val a))) l))
    by apply Permutation_length, stable_sort_perm.
  rewrite <- Hlen. destruct (le_lt_dec n (length ranked)) as [Hle|Hlt]; [|exact Hlt].
  exfalso. rewrite firstn_app in Ha.
  replace (n - length ranked)%nat with 0%nat in Ha by lia. simpl in Ha.
  rewrite app_nil_r in Ha.
  assert (In a ranked) as Hin.
  { rewrite <- (firstn_skipn n ranked). apply in_or_app. by left. }
  apply (Permutation_in a (stable_sort_perm _ _)) in Hin.
  apply filter_In in Hin as [_ Hnot]. by rewrite Hnan in Hnot.
Qed.

(** X14.  The mean growth of a product is the arithmetic mean of its growth
    rates when these are all finite.  An infinite growth rate makes the mean
    that infinity, unless infinities of both signs meet: then the mean is NaN,
    and the product is in the top-5 ranking only when fewer than five products
    have a mean that is not NaN. *)
Theorem mean_growth_values (trend : list TrendRow) (p : string) (g : float) :
  In (p, g) (mean_growth trend) ->
  g = series_mean (growths_of p trend)
  /\ (forallb is_fin (growths_of p trend) = true ->
      g = Fin (qsum (map fin_value (growths_of p trend))
               / Qc_of_Z (Z.of_nat (length (growths_of p trend))))%Qc)
  /\ (existsb is_pinf (growths_of p trend) = true ->
      existsb is_ninf (growths_of p trend) = false -> g = PInf)
  /\ (existsb is_ninf (growths_of p trend) = true ->
      existsb is_pinf (growths_of p trend) = false -> g = NInf)
  /\ (existsb is_pinf (growths_of p trend) = true ->
      existsb is_ninf (growths_of p trend) = true ->
      g = NaN
      /\ forall g', In (p, g') (top_growth_products trend) ->
           (length (List.filter (fun a => negb (is_nan (snd a))) (mean_growth trend))
            < 5)%nat).
Proof.
  intros Hg.
  assert (Hkeys : forall g', In (p, g') (mean_growth trend) ->
                             g' = series_mean (growths_of p trend)).
  { intros g' Hg'. unfold mean_growth in Hg'. apply in_map_iff in Hg' as (p' & E & _).
    by injection E as -> <-. }
  pose proof (Hkeys g Hg) as Hmean. split; [exact Hmean|].
  assert (Hne : growths_of p trend <> []).
  { unfold mean_growth in Hg. apply in_map_iff in Hg as (p' & E & Hp').
    injection E as -> _.
    rewrite <- list_elem_of_In, merge_sort_Permutation, elem_of_remove_dups,
      list_elem_of_In, in_map_iff in Hp'.
    destruct Hp' as (t & Htp & Ht). intros Hnil.
    assert (In (tr_GROWTH t) (growths_of p trend)) as Hin.
    { unfold growths_of. apply in_map, filter_In. split; [exact Ht|].
      by apply String.eqb_eq. }
    by rewrite Hnil in Hin. }
  set (s := growths_of p trend) in *.
  set (vals := List.filter (fun x => negb (is_nan x)) s).
  assert (Hsum := fsum_classify vals (filter_notnan_all s)).
  unfold vals in Hsum at 2 3 4.
  rewrite !existsb_filter_notnan in Hsum by reflexivity.
  assert (Hmean' : g = fdiv (fold_right fadd (Fin 0%Qc) vals)
                            (Fin (Qc_of_Z (Z.of_nat (length vals))))).
  { rewrite Hmean. reflexivity. }
  rewrite Hsum in Hmean'. clear Hsum.
  split; [|split; [|split]].
  - intros Hfin.
    assert (vals = s) as Hvals.
    { unfold vals. apply filter_true. intros x Hx.
      rewrite forallb_forall in Hfin. specialize (Hfin x Hx). by destruct x. }
    assert (existsb is_pinf s = false) as Hp.
    { apply not_true_is_false. intros E. apply existsb_exists in E as (x & Hx & E).
      rewrite forallb_forall in Hfin. specialize (Hfin x Hx). by destruct x. }
    assert (existsb is_ninf s = false) as Hn.
    { apply not_true_is_false. intros E. apply existsb_exists in E as (x & Hx & E).
      rewrite forallb_forall in Hfin. specialize (Hfin x Hx). by destruct x. }
    rewrite Hp, Hn, Hvals in Hmean'. rewrite Hmean'. unfold fdiv.
    rewrite bool_decide_eq_false_2; [reflexivity|].
    apply Qc_of_nat_nonzero. by destruct s.
  - intros Hp Hn. rewrite Hp, Hn in Hmean'. rewrite Hmean'. unfold fdiv.
    by rewrite bool_decide_eq_true_2 by apply Qc_of_nat_nonneg.
  - intros Hn Hp. rewrite Hp, Hn in Hmean'. rewrite Hmean'. unfold fdiv.
    by rewrite bool_decide_eq_true_2 by apply Qc_of_nat_nonneg.
  - intros Hp Hn. rewrite Hp, Hn in Hmean'. simpl in Hmean'.
    split; [exact Hmean'|]. intros g' Hin.
    unfold top_growth_products in Hin.
    apply (series_nlargest_nan 5 snd (mean_growth trend) (p, g') Hin). simpl.
    apply series_nlargest_In in Hin.
    by rewrite (Hkeys g' Hin), <- Hmean, Hmean'.
Qed.

(* ===================================================================== *)
(** ** Growth ranking and geographic rollup                               *)
(* ===================================================================== *)

Lemma mean_growth_keys (trend : list TrendRow) :
  map fst (mean_growth trend) = merge_sort String.le (remove_dups (map tr_PRODUCT trend)).
Proof. unfold mean_growth. rewrite map_map. simpl. apply map_id. Qed.

(** X15.  The growth ranking shows at most five products, each once, and all
    the products of the trend table when these are at most five.  First come
    the products whose mean growth is a number or an infinity, then, if there
    is room left, those whose mean is NaN.  Every product shown has records in
    two different months, so a product seen in one month only is never
    ranked. *)
Theorem growth_ranking_shape (filtered_df : DataFrame) :
  (length (top_growth_products (trend_df filtered_df)) <= 5)%nat
  /\ NoDup (map fst (top_growth_products (trend_df filtered_df)))
  /\ ((length (mean_growth (trend_df filtered_df)) <= 5)%nat ->
      Permutation (top_growth_products (trend_df filtered_df))
                  (mean_growth (trend_df filtered_df)))
  /\ (exists numbers nans,
        top_growth_products (trend_df filtered_df) = numbers ++ nans
        /\ Forall (fun a => is_nan (snd a) = false) numbers
        /\ Forall (fun a => is_nan (snd a) = true) nans)
  /\ (forall p g, In (p, g) (top_growth_products (trend_df filtered_df)) ->
        In (p, g) (mean_growth (trend_df filtered_df))
        /\ (g = NaN ->
            (length (List.filter (fun a => negb (is_nan (snd a)))
                                 (mean_growth (trend_df filtered_df))) < 5)%nat)
        /\ exists m m', m' < m /\ populated filtered_df m p /\ populated filtered_df m' p).
Proof.
  set (means := mean_growth (trend_df filtered_df)).
  split; [|split; [|split; [|split]]].
  - unfold top_growth_products, series_nlargest. apply firstn_le_length.
  - unfold top_growth_products, series_nlargest. fold means. rewrite <- firstn_map.
    eapply sublist_NoDup; [|apply sublist_take].
    assert (Hp : Permutation
                   (map fst (stable_sort (fun a b => float_leb (snd b) (snd a))
                               (List.filter (fun a => negb (is_nan (snd a))) means)
                             ++ List.filter (fun a : string * float => is_nan (snd a)) means))
                   (map fst means))
      by apply Permutation_map, series_nlargest_perm.
    rewrite Hp. unfold means.
    rewrite mean_growth_keys, merge_sort_Permutation. apply NoDup_remove_dups.
  - intros Hfew. unfold top_growth_products, series_nlargest. fold means.
    rewrite firstn_all2; [apply series_nlargest_perm|].
    by rewrite (Permutation_length (series_nlargest_perm snd means)).
  - unfold top_growth_products, series_nlargest. fold means.
    rewrite firstn_app. eexists _, _. split; [reflexivity|]. split.
    + apply Forall_forall. intros a Ha. apply list_elem_of_In in Ha.
      assert (In a (stable_sort (fun a b => float_leb (snd b) (snd a))
                      (List.filter (fun a => negb (is_nan (snd a))) means))) as Hin.
      { rewrite <- (firstn_skipn 5 (stable_sort _ _)). apply in_or_app. by left. }
      apply (Permutation_in a (stable_sort_perm _ _)) in Hin.
      apply filter_In in Hin as [_ Hnot]. by apply negb_true_iff.
    + apply Forall_forall. intros a Ha. apply list_elem_of_In in Ha.
      assert (In a (List.filter (fun a : string * float => is_nan (snd a)) means)) as Hin.
      { rewrite <- (firstn_skipn (5 - length (stable_sort (fun a b => float_leb (snd b) (snd a))
                      (List.filter (fun a => negb (is_nan (snd a))) means)))
                      (List.filter _ means)).
        apply in_or_app. by left. }
      by apply filter_In in Hin as [_ Hnan].
  - intros p g Hin. unfold top_growth_products in Hin.
    pose proof (series_nlargest_In 5 snd _ _ Hin) as Hmem. fold means in Hmem.
    split; [exact Hmem|]. split.
    + intros ->. by apply (series_nlargest_nan 5 snd _ (p, NaN) Hin).
    + assert (In p (map fst means)) as Hp
          by (apply in_map_iff; exists (p, g); auto).
      unfold means in Hp. rewrite mean_growth_keys in Hp.
      rewrite <- list_elem_of_In, merge_sort_Permutation, elem_of_remove_dups,
        list_elem_of_In, in_map_iff in Hp.
      destruct Hp as (t & <- & Ht).
      apply trend_df_In in Ht as [Ht Hna'].
      destruct (with_growth_prev _ t (trend_cells_sorted filtered_df)
                  (trend_cells_NoDup filtered_df) Ht) as (c & Hc & Et & Hprev).
      unfold trend_notna in Hna'. destruct (tr_PREV t) as [pv|]; [|discriminate].
      destruct Hprev as (d & Hd & Hdp & Hlt & _).
      apply trend_cells_In in Hc as [Hcpop _]. apply trend_cells_In in Hd as [Hdpop _].
      rewrite Et. simpl. exists (c_month c), (c_month d).
      split; [exact Hlt|]. split; [exact Hcpop|]. by rewrite <- Hdp.
Qed.


(** X17.  The chart of step 7 is drawn exactly when some record has the
    selected unit; it then has between one and five bars, each for a product
    that has a record in that unit.  Otherwise the page reports that there is
    no data for the unit. *)
Theorem unit_chart_guard (selected_unit : string) (filtered_df : DataFrame) :
  (top_products_by_unit (unit_rows selected_unit filtered_df) = None
   <-> forall r, In r filtered_df -> QUANTITY_UNIT r <> selected_unit)
  /\ (forall chart,
        top_products_by_unit (unit_rows selected_unit filtered_df) = Some chart ->
        (1 <= length chart <= 5)%nat
        /\ forall g, In g chart ->
             exists r, In r filtered_df /\ QUANTITY_UNIT r = selected_unit
                       /\ PRODUCT_DETAILS r = fst g).
Proof.
  unfold top_products_by_unit. split.
  - split.
    + intros Hnone r Hr E.
      assert (In r (unit_rows selected_unit filtered_df)) as Hin.
      { unfold unit_rows. apply filter_In. split; [exact Hr|]. by apply String.eqb_eq. }
      destruct (unit_rows selected_unit filtered_df); [destruct Hin|discriminate Hnone].
    + intros Hno. destruct (unit_rows selected_unit filtered_df) as [|r l] eqn:E; [reflexivity|].
      exfalso. assert (In r (unit_rows selected_unit filtered_df)) as Hin by (rewrite E; by left).
      unfold unit_rows in Hin. apply filter_In in Hin as [Hr Hu].
      apply String.eqb_eq in Hu. by apply (Hno r).
  - intros chart Hchart.
    assert (Hne : unit_rows selected_unit filtered_df <> [])
      by (intros E; rewrite E in Hchart; discriminate).
    assert (chart = top_by_quantity 5 (unit_rows selected_unit filtered_df)) as ->.
    { destruct (unit_rows selected_unit filtered_df); [contradiction|].
      simpl in Hchart. by injection Hchart. }
    clear Hchart. unfold top_by_quantity.
    destruct (nlargest_spec snd 5
                (groupby_sum String.le PRODUCT_DETAILS QUANTITY
                   (unit_rows selected_unit filtered_df))) as (Hlen & _ & Hin).
    assert (Hrows : forall g,
              In g (groupby_sum String.le PRODUCT_DETAILS QUANTITY
                      (unit_rows selected_unit filtered_df)) ->
              exists r, In r filtered_df /\ QUANTITY_UNIT r = selected_unit
                        /\ PRODUCT_DETAILS r = fst g).
    { intros g Hg. unfold groupby_sum in Hg. apply in_map_iff in Hg as (k & <- & Hk).
      apply (group_keys_In String.le PRODUCT_DETAILS) in Hk as (r & Hr & Hp).
      unfold unit_rows in Hr. apply filter_In in Hr as [Hr Hu].
      apply String.eqb_eq in Hu. exists r. auto. }
    split; [|intros g Hg; by apply Hrows, Hin].
    rewrite Hlen. split; [|lia]. clear Hlen Hin Hrows.
    destruct (unit_rows selected_unit filtered_df) as [|r0 l]; [contradiction|].
    assert (In (PRODUCT_DETAILS r0)
               (map fst (groupby_sum String.le PRODUCT_DETAILS QUANTITY (r0 :: l)))) as Hkey.
    { rewrite groupby_sum_keys. apply group_keys_In. exists r0. split; [by left|done]. }
    rewrite <- (length_map fst). destruct (map fst _); [destruct Hkey|]. cbn [length]. lia.
Qed.

(* ===================================================================== *)
(** ** Further instances on the sample frames                             *)
(* ===================================================================== *)

Lemma apply_filters_conjunction_witness :
  In (mk_row (at_midnight 2024 3 1) "Bolt" "DE" "Pump" (Some (Qc_of_Z 7)) None)
     (apply_filters
        {| start_date := Date 2024 2 1; end_date := Date 2024 12 31;
           selected_importers := ["Bolt"]; selected_importer_country := "DE";
           selected_exporter_country := "All" |} gap_csv).
Proof.
  apply (apply_filters_conjunction _ gap_csv).
  split; [right; right; left; reflexivity|].
  split; [split; reflexivity|].
  split; [right; left; reflexivity|].
  split; [right; reflexivity|left; reflexivity].
Defined.

Lemma full_range_keeps_all_witness :
  date_filter (Date 2024 1 5) (Date 2024 3 1) gap_csv = gap_csv.
Proof.
  destruct (full_range_keeps_all gap_csv) as [Hall _].
  apply Hall; reflexivity.
Defined.

Lemma initial_view_witness :
  exists spec, initial_spec three_df = Some spec /\ apply_filters spec three_df = three_df.
Proof.
  destruct (initial_view three_df) as [Hview _].
  destruct (initial_spec three_df) as [spec|] eqn:E; [|vm_compute in E; discriminate E].
  exists spec. split; [reflexivity|].
  destruct (Hview spec eq_refl) as (_ & _ & Hfew & _).
  apply Hfew. apply Nat.leb_le. reflexivity.
Defined.

Lemma month_end_label_witness :
  ts_date (month_end (month_index (at_midnight 2024 2 10))) = Date 2024 2 29.
Proof.
  destruct (month_end_label (at_midnight 2024 2 10)) as [_ Hlabel].
  destruct Hlabel as (Hdate & _ & _).
  - unfold valid_date. vm_compute. repeat split; discriminate.
  - exact Hdate.
Defined.

Lemma ranking_keeps_largest_witness :
  let groups := group_values IMPORTER_NAME three_df in
  let none := {| vg_key := ""; vg_CIF := 0%Qc; vg_FOB := 0%Qc; vg_TOTAL := 0%Qc |} in
  (vg_TOTAL (nth 0 groups none) <= vg_TOTAL (nth 1 groups none))%Qc.
Proof.
  intros groups none.
  destruct (ranking_keeps_largest 1 IMPORTER_NAME three_df three_df) as [Hmax _].
  apply Hmax.
  - vm_compute. left. reflexivity.
  - vm_compute. left. reflexivity.
  - vm_compute. intros [H|[]]. discriminate H.
Defined.

Lemma importer_count_and_ranking_witness : num_importers [] = 0%nat.
Proof.
  destruct (importer_count_and_ranking []) as (_ & Hzero & _).
  apply Hzero. reflexivity.
Defined.

Lemma pieces_become_pcs_witness :
  QUANTITY_UNIT (set_QUANTITY_UNIT "PCS" (set_QUANTITY_UNIT "Pieces" blank_row)) <> "Pieces".
Proof.
  destruct (pieces_become_pcs pieces_df) as [Hnone _].
  apply Hnone. left. reflexivity.
Defined.

Lemma cached_load_is_stable_witness :
  exists a b st',
    load_twice "JVS" ∅ first_run = inr ((a, b), st')
    /\ heap st' !! a = Some gap_csv
    /\ heap st' !! b = Some gap_csv
    /\ a <> b
    /\ cache st' !! "JVS" = Some gap_csv.
Proof. apply cached_load_is_stable. reflexivity. Defined.

Lemma render_stops_without_data_witness :
  render "JVS" (all_spec (Date 2024 1 1) (Date 2024 12 31) []) no_data
  = inl FileNotFoundError.
Proof.
  destruct (render_stops_without_data
              "JVS" (all_spec (Date 2024 1 1) (Date 2024 12 31) []) no_data) as [Hfail _].
  apply Hfail. reflexivity.
Defined.

Lemma mean_growth_values_witness :
  PInf = series_mean (growths_of "Z" (trend_df zero_df)).
Proof.
  destruct (mean_growth_values (trend_df zero_df) "Z" PInf) as [Hmean _].
  - vm_compute. left. reflexivity.
  - exact Hmean.
Defined.

Lemma growth_ranking_shape_witness :
  exists m m', m' < m /\ populated zero_df m "Z" /\ populated zero_df m' "Z".
Proof.
  destruct (growth_ranking_shape zero_df) as (_ & _ & _ & _ & Hrows).
  destruct (Hrows "Z" PInf) as (_ & _ & Hpop).
  - vm_compute. left. reflexivity.
  - exact Hpop.
Defined.


Lemma unit_chart_guard_witness :
  top_products_by_unit (unit_rows "KGS" three_df) = None.
Proof.
  destruct (unit_chart_guard "KGS" three_df) as [Hnone _].
  apply Hnone. intros r Hr. simpl in Hr.
  destruct Hr as [<-|[<-|[<-|[<-|[]]]]]; discriminate.
Defined.

Lemma country_options_select_something_witness :
  country_filter IMPORTER_COUNTRY "DE" gap_csv <> [].
Proof.
  destruct (country_options_select_something IMPORTER_COUNTRY gap_csv)
    as (_ & _ & _ & _ & _ & Hsome).
  apply Hsome.
  - right. right. left. reflexivity.
  - discriminate.
Defined.

(* ===================================================================== *)
(** ** An inverted date range; months and their product cells             *)
(* ===================================================================== *)

(** X19.  When the end date is before the start date no record is in range:
    the filtered relation is empty, whatever the other selections. *)
Theorem inverted_range_is_empty (spec : FilterSpec) (df : DataFrame) :
  date_le (start_date spec) (end_date spec) = false ->
  date_filter (start_date spec) (end_date spec) df = []
  /\ apply_filters spec df = []
  /\ num_shipments (apply_filters spec df) = 0%nat.
Proof.
  intros Hinv.
  assert (Hnone : forall r, passes spec r = false).
  { intros r. unfold passes, in_range, dt_date.
    destruct (date_le (start_date spec) (ts_date (ARRIVAL_DATE r))) eqn:H1; [|reflexivity].
    destruct (date_le (ts_date (ARRIVAL_DATE r)) (end_date spec)) eqn:H2; [|reflexivity].
    rewrite (date_le_trans _ _ _ H1 H2) in Hinv. discriminate. }
  assert (Hdate : date_filter (start_date spec) (end_date spec) df = []).
  { unfold date_filter. induction df as [|r df IH]; [reflexivity|]. simpl.
    unfold in_range, dt_date at 1 2.
    destruct (date_le (start_date spec) (ts_date (ARRIVAL_DATE r))) eqn:H1; [|exact IH].
    destruct (date_le (ts_date (ARRIVAL_DATE r)) (end_date spec)) eqn:H2; [|exact IH].
    rewrite (date_le_trans _ _ _ H1 H2) in Hinv. discriminate. }
  assert (Hall : apply_filters spec df = []).
  { rewrite apply_filters_passes. induction df as [|r df IH]; [reflexivity|].
    simpl. rewrite Hnone. apply IH.
    unfold date_filter in *. simpl in Hdate.
    destruct (in_range _ _ r); [discriminate|exact Hdate]. }
  split; [exact Hdate|]. split; [exact Hall|]. by rewrite Hall.
Qed.

Lemma group_rows_pair (m : Z) (p : string) (df : DataFrame) :
  group_rows trend_key (m, p) df = group_rows PRODUCT_DETAILS p (group_rows row_month m df).
Proof.
  unfold group_rows. rewrite filter_filter_and. apply filter_ext. intros r.
  unfold trend_key.
  destruct (decide (row_month r = m)) as [Em|Em], (decide (PRODUCT_DETAILS r = p)) as [Ep|Ep].
  - rewrite !bool_decide_eq_true_2 by congruence. reflexivity.
  - rewrite (bool_decide_eq_false_2 (_ = (m, p))) by congruence.
    rewrite (bool_decide_eq_false_2 (PRODUCT_DETAILS r = p)) by done. by rewrite andb_false_r.
  - rewrite (bool_decide_eq_false_2 (_ = (m, p))) by congruence.
    by rewrite (bool_decide_eq_false_2 (row_month r = m)) by done.
  - rewrite (bool_decide_eq_false_2 (_ = (m, p))) by congruence.
    by rewrite (bool_decide_eq_false_2 (row_month r = m)) by done.
Qed.

Lemma inverted_range_is_empty_witness :
  apply_filters (all_spec (Date 2024 3 1) (Date 2024 1 1) []) gap_csv = [].
Proof.
  destruct (inverted_range_is_empty (all_spec (Date 2024 3 1) (Date 2024 1 1) []) gap_csv)
    as (_ & Hempty & _); [reflexivity|exact Hempty].
Defined.

(* ===================================================================== *)
(** ** Groups as a partition of the records                               *)
(* ===================================================================== *)

(** Grouping over a duplicate-free list of keys that covers the frame deals
    the rows out: every row lands in the group of its key, and in no other. *)
Lemma groups_partition {K} `{EqDecision K} (key : Row -> K) (keys : list K)
      (df : DataFrame) :
  NoDup keys ->
  (forall r, In r df -> In (key r) keys) ->
  Permutation (concat (map (fun k => group_rows key k df) keys)) df.
Proof.
  intros Hnd. revert df. induction Hnd as [|k keys Hk Hnd IH]; intros df Hcov.
  - destruct df as [|r df]; [reflexivity|]. destruct (Hcov r (or_introl eq_refl)).
  - cbn [map concat].
    set (rest := List.filter (fun r => negb (bool_decide (key r = k))) df).
    assert (Hsame : map (fun k' => group_rows key k' df) keys
                    = map (fun k' => group_rows key k' rest) keys).
    { apply map_ext_in. intros k' Hk'. unfold group_rows, rest.
      rewrite filter_filter_and. apply filter_ext. intros r.
      destruct (decide (key r = k')) as [E|E].
      - rewrite (bool_decide_eq_true_2 _ E).
        rewrite bool_decide_eq_false_2; [reflexivity|].
        intros E2. apply Hk. rewrite <- E2, E. by apply list_elem_of_In.
      - rewrite (bool_decide_eq_false_2 _ E). by rewrite andb_false_r. }
    rewrite Hsame, IH.
    + etrans; [apply Permutation_app_comm|].
      apply (filter_split_perm (fun r => bool_decide (key r = k))).
    + intros r Hr. unfold rest in Hr. apply filter_In in Hr as [Hr Hne].
      destruct (Hcov r Hr) as [E|Hin]; [|exact Hin].
      rewrite bool_decide_eq_true_2 in Hne by done. discriminate.
Qed.

Lemma dimes_totals :
  PrimFloat.eqb (series_sum64 (map snd (time_series64 dimes_df)))
                (float64_of_amount (Q2Qc (7 # 10))) = true
  /\ PrimFloat.eqb (series_sum64 (map snd (geo64 dimes_df)))
                   (float64_of_amount (Q2Qc (7 # 10))) = true
  /\ PrimFloat.ltb (float64_of_amount (Q2Qc (7 # 10))) (total_value64 dimes_df) = true.
Proof. vm_compute. repeat split. Qed.

(** C10 (as stated in the specification, refuted).  In the float64 arithmetic
    of the script the grand total is not preserved: for three records of 0.1,
    0.2 and 0.4, the first and the last in January, the Total Value metric is
    (0.1 + 0.2) + 0.4 = 0.7000000000000001, while the monthly buckets 0.5 and
    0.2 (and the per-country totals, also 0.5 and 0.2) add up to 0.7. *)
Lemma grand_total_differs_in_binary64 :
  ~ (forall df : DataFrame,
       PrimFloat.eqb (total_value64 df) (series_sum64 (map snd (time_series64 df))) = true
       /\ PrimFloat.eqb (total_value64 df) (series_sum64 (map snd (geo64 df))) = true).
Proof.
  intros H. destruct (H dimes_df) as [Hmonths _].
  vm_compute in Hmonths. discriminate Hmonths.
Qed.

(** C10 (amended).  Group-by-sum regroups the records without losing or
    repeating any: every record of the filtered relation is counted in exactly
    one monthly bucket of the time series and in exactly one per-country total
    of the geographic rollup.  The Total Value metric adds the total values of
    all records, a bucket those of the records of its month, and a per-country
    total those of the records of its country. *)
Theorem grand_total_same_records (filtered_df : DataFrame) :
  Permutation
    (concat (map (fun b => group_rows row_month (tb_month b) filtered_df)
                 (time_series_df filtered_df)))
    filtered_df
  /\ Permutation
       (concat (map (fun c => group_rows IMPORTER_COUNTRY (fst c) filtered_df)
                    (geo_df filtered_df)))
       filtered_df
  /\ total_value filtered_df = qsum (present (map TOTAL_VALUE filtered_df))
  /\ (forall b, In b (time_series_df filtered_df) ->
        tb_TOTAL b
        = qsum (present (map TOTAL_VALUE
                           (group_rows row_month (tb_month b) filtered_df))))
  /\ (forall c, In c (geo_df filtered_df) ->
        snd c
        = qsum (present (map TOTAL_VALUE
                           (group_rows IMPORTER_COUNTRY (fst c) filtered_df)))).
Proof.
  split; [|split; [|split; [|split]]].
  - rewrite <- (map_map tb_month (fun k => group_rows row_month k filtered_df)).
    rewrite time_series_months. apply groups_partition.
    + apply strictly_sorted_NoDup, month_bins_sorted.
    + intros r Hr. apply month_bins_In. exists r, r. repeat split; auto; lia.
  - rewrite <- (map_map fst (fun k => group_rows IMPORTER_COUNTRY k filtered_df)).
    unfold geo_df. rewrite groupby_sum_keys. apply groups_partition.
    + apply group_keys_NoDup.
    + intros r Hr. apply group_keys_In. eauto.
  - apply series_sum_present.
  - intros b Hb. unfold time_series_df in Hb. apply in_map_iff in Hb as (k & <- & _).
    apply series_sum_present.
  - intros c Hc. unfold geo_df, groupby_sum in Hc. apply in_map_iff in Hc as (k & <- & _).
    apply series_sum_present.
Qed.

Lemma grand_total_same_records_witness :
  tb_TOTAL {| tb_month := 2024 * 12 + 1; tb_TOTAL := 0%Qc |}
  = qsum (present (map TOTAL_VALUE (group_rows row_month (2024 * 12 + 1) gap_df))).
Proof.
  destruct (grand_total_same_records gap_df) as (_ & _ & _ & Hbucket & _).
  apply (Hbucket {| tb_month := 2024 * 12 + 1; tb_TOTAL := 0%Qc |}).
  right. left. reflexivity.
Defined.

(* ===================================================================== *)
(** ** The metric and the groups of the value charts                      *)
(* ===================================================================== *)

(** X8.  The Total Value metric adds, record by record in the order of the
    relation, the amounts of the record that are present.  The groups behind
    the Top Importers and Top Products charts deal the records out: every
    record is in exactly one group, whose total is the sum of the CIF amounts
    present in the group plus the sum of its FOB amounts present; and when
    there are no more groups than bars, the chart shows every group. *)
Theorem total_value_and_value_groups (K : nat) (key : Row -> string) (df : DataFrame) :
  total_value (derive_total_value df)
  = qsum (map (fun r => qsum (present [IMPORT_VALUE_CIF r; IMPORT_VALUE_FOB r])) df)
  /\ Permutation
       (concat (map (fun g => group_rows key (vg_key g) df) (group_values key df))) df
  /\ (forall g, In g (group_values key df) ->
        vg_TOTAL g
        = (qsum (present (map IMPORT_VALUE_CIF (group_rows key (vg_key g) df)))
           + qsum (present (map IMPORT_VALUE_FOB (group_rows key (vg_key g) df))))%Qc)
  /\ ((length (remove_dups (map key df)) <= K)%nat ->
      Permutation (top_by_value K key df) (group_values key df)).
Proof.
  split; [|split; [|split]].
  - rewrite total_value_derived.
    induction df as [|r df IH]; [reflexivity|].
    cbn [map series_sum]. rewrite qsum_cons, IH. f_equal.
    unfold row_total, present.
    destruct (IMPORT_VALUE_CIF r), (IMPORT_VALUE_FOB r); simpl; ring.
  - rewrite <- (map_map vg_key (fun k => group_rows key k df)), group_values_keys.
    apply groups_partition.
    + apply group_keys_NoDup.
    + intros r Hr. apply group_keys_In. eauto.
  - intros g Hg. unfold group_values in Hg. apply in_map_iff in Hg as (k & <- & _).
    simpl. by rewrite !series_sum_present.
  - intros Hfew. unfold top_by_value, head. rewrite firstn_all2.
    + apply sort_desc_perm.
    + rewrite (Permutation_length (sort_desc_perm _ _)). by rewrite group_values_length.
Qed.

Lemma total_value_and_value_groups_witness :
  Permutation (top_by_value 10 IMPORTER_NAME three_df) (group_values IMPORTER_NAME three_df).
Proof.
  destruct (total_value_and_value_groups 10 IMPORTER_NAME three_df) as (_ & _ & _ & Hbars).
  apply Hbars. apply Nat.leb_le. reflexivity.
Defined.

(* ===================================================================== *)
(** ** Drill-down selections                                              *)
(* ===================================================================== *)




(* ===================================================================== *)
(** ** A month and its product cells                                      *)
(* ===================================================================== *)

(** X20.  The time series and the (month, product) table of the trend analysis
    agree on the records: the table has one cell of a month for each product
    with a record in that month, and these cells deal the records of the month
    out, every record of the month being counted in exactly one of them.  The
    bucket adds the total values of the records of the month, a cell those of
    the records of its product in the month. *)
Theorem month_records_split_by_cells (filtered_df : DataFrame) (b : TimeBucket) :
  In b (time_series_df filtered_df) ->
  let cells := List.filter (fun c => c_month c =? tb_month b) (trend_cells filtered_df) in
  Permutation (concat (map (fun c => group_rows trend_key (ckey c) filtered_df) cells))
              (group_rows row_month (tb_month b) filtered_df)
  /\ NoDup (map c_PRODUCT cells)
  /\ (forall p, In p (map c_PRODUCT cells) <-> populated filtered_df (tb_month b) p)
  /\ tb_TOTAL b
     = qsum (present (map TOTAL_VALUE (group_rows row_month (tb_month b) filtered_df)))
  /\ (forall c, In c cells ->
        c_TOTAL c
        = qsum (present (map TOTAL_VALUE (group_rows trend_key (ckey c) filtered_df)))).
Proof.
  intros Hb cells. unfold time_series_df in Hb. apply in_map_iff in Hb as (m & <- & _).
  cbn [tb_month tb_TOTAL] in *.
  set (dfm := group_rows row_month m filtered_df).
  assert (Hcell : forall c, In c cells ->
            In c (trend_cells filtered_df) /\ c_month c = m).
  { intros c Hc. unfold cells in Hc. apply filter_In in Hc as [Hc Hm].
    split; [exact Hc|]. by apply Z.eqb_eq. }
  assert (Hnd : NoDup (map c_PRODUCT cells)).
  { assert (Hkeys : map ckey cells = map (fun p => (m, p)) (map c_PRODUCT cells)).
    { rewrite map_map. apply map_ext_in. intros c Hc.
      destruct (Hcell c Hc) as [_ Hm]. unfold ckey. by rewrite Hm. }
    assert (Hndk : NoDup (map ckey cells)).
    { eapply sublist_NoDup; [apply trend_cells_NoDup|]. apply fmap_sublist.
      apply filter_sublist. }
    rewrite Hkeys in Hndk. clear -Hndk.
    induction (map c_PRODUCT cells) as [|p ps IH]; [constructor|].
    simpl in Hndk. apply NoDup_cons in Hndk as [Hp Hndk]. constructor; [|by apply IH].
    intros Hin. apply Hp. apply list_elem_of_In, in_map. by apply list_elem_of_In. }
  assert (Hpop : forall p, In p (map c_PRODUCT cells) <-> populated filtered_df m p).
  { intros p. rewrite in_map_iff. split.
    - intros (c & <- & Hc). destruct (Hcell c Hc) as [Hin Hm].
      apply trend_cells_In in Hin as [Hp _]. by rewrite Hm in Hp.
    - intros Hp.
      exists {| c_month := m; c_PRODUCT := p; c_TOTAL := cell_total filtered_df m p |}.
      split; [reflexivity|]. unfold cells. apply filter_In. split.
      + by apply populated_cell.
      + simpl. apply Z.eqb_refl. }
  split; [|split; [exact Hnd|split; [exact Hpop|split]]].
  - assert (Hgroups : map (fun c => group_rows trend_key (ckey c) filtered_df) cells
                      = map (fun p => group_rows PRODUCT_DETAILS p dfm) (map c_PRODUCT cells)).
    { rewrite map_map. apply map_ext_in. intros c Hc.
      destruct (Hcell c Hc) as [_ Hm]. unfold ckey. by rewrite Hm, group_rows_pair. }
    rewrite Hgroups. apply groups_partition; [exact Hnd|].
    intros r Hr. apply Hpop. unfold dfm in Hr. apply group_rows_In in Hr as [Hr Hm].
    exists r. auto.
  - apply series_sum_present.
  - intros c Hc. destruct (Hcell c Hc) as [Hin Hm].
    apply trend_cells_In in Hin as [_ ->]. unfold cell_total, ckey.
    apply series_sum_present.
Qed.

Lemma month_records_split_by_cells_witness :
  NoDup (map c_PRODUCT
           (List.filter (fun c => c_month c =? 2024 * 12 + 1) (trend_cells gap_df))).
Proof.
  destruct (month_records_split_by_cells
              gap_df {| tb_month := 2024 * 12 + 1; tb_TOTAL := 0%Qc |}) as (_ & Hnd & _).
  - right. left. reflexivity.
  - exact Hnd.
Defined.
